(** * create-ucsc-packages.py: recipe generation for the UCSC tools

    A shallow embedding of [scripts/ucsc/create-ucsc-packages.py] and the
    properties of its manifest parser, name resolution, source-directory
    locator and template renderer.

    Python byte strings are [string]; dictionaries with string keys are
    [gmap string _]; the file system the script writes to is a record of
    a directory set and a file map; exceptions are the left summand of
    the result of a computation, which keeps the state reached when the
    exception was raised. *)

From Stdlib Require Import String Ascii List NArith Lia.
From stdpp Require Import gmap strings list fin_maps.

Open Scope string_scope.
Open Scope list_scope.

(* Concatenation computes on its first argument; comparisons of
   characters stay folded. *)
Arguments String.append !s1 s2 : simpl nomatch.
Arguments Ascii.eqb : simpl never.
Arguments String.eqb : simpl never.

(** ** Byte strings *)

Module Str.

Definition nl : ascii := "010"%char.

Definition NL : string := String nl "".

Definition between (lo hi : N) (c : ascii) : bool :=
  let n := N_of_ascii c in ((lo <=? n) && (n <=? hi))%N.

(** [\s] on byte strings: space, [\t], [\n], [\v], [\f], [\r]. *)
Definition is_space (c : ascii) : bool :=
  between 9 13 c || (N_of_ascii c =? 32)%N.

(** [\w] on byte strings: [[a-zA-Z0-9_]]. *)
Definition is_word (c : ascii) : bool :=
  between 48 57 c || between 65 90 c || between 97 122 c
  || (N_of_ascii c =? 95)%N.

(** [.] without DOTALL: every character but the newline. *)
Definition is_dot (c : ascii) : bool := negb (Ascii.eqb c nl).

Definition is_eq (c : ascii) : bool := Ascii.eqb c "="%char.

Definition is_slash (c : ascii) : bool := Ascii.eqb c "/"%char.

Fixpoint all (p : ascii -> bool) (s : string) : bool :=
  match s with
  | "" => true
  | String c s' => p c && all p s'
  end.

Fixpoint any (p : ascii -> bool) (s : string) : bool :=
  match s with
  | "" => false
  | String c s' => p c || any p s'
  end.

(** [s[len(pre):]] when [s.startswith(pre)]. *)
Fixpoint strip_prefix (pre s : string) : option string :=
  match pre with
  | "" => Some s
  | String a pre' =>
      match s with
      | String b s' => if Ascii.eqb a b then strip_prefix pre' s' else None
      | "" => None
      end
  end.

Definition startswith (s pre : string) : bool :=
  match strip_prefix pre s with Some _ => true | None => false end.

(** [s.endswith(suf)], for a single character [suf]. *)
Fixpoint endswith (s suf : string) : bool :=
  match s with
  | "" => false
  | String c "" => String.eqb (String c "") suf
  | String _ s' => endswith s' suf
  end.

(** [sub in s] *)
Fixpoint contains (sub s : string) : bool :=
  startswith s sub ||
  match s with
  | "" => false
  | String _ s' => contains sub s'
  end.

(** [s.replace(old, new)] for a non-empty [old]: the occurrences of [old]
    are replaced from left to right, without overlap.  [skip] counts the
    characters of an occurrence still to be dropped. *)
Fixpoint replace_from (skip : nat) (old new s : string) : string :=
  match s with
  | "" => ""
  | String c s' =>
      match skip with
      | S n => replace_from n old new s'
      | O =>
          if startswith s old
          then new +:+ replace_from (String.length old - 1) old new s'
          else String c (replace_from 0 old new s')
      end
  end.

Definition replace (old new s : string) : string := replace_from 0 old new s.

Definition lower_char (c : ascii) : ascii :=
  if between 65 90 c then ascii_of_N (N_of_ascii c + 32) else c.

(** [s.lower()] *)
Fixpoint lower (s : string) : string :=
  match s with
  | "" => ""
  | String c s' => String (lower_char c) (lower s')
  end.

(** [s.split()]: the maximal runs of non-whitespace characters.  [cur] is
    the run being read. *)
Fixpoint split_from (cur : option string) (s : string) : list string :=
  match s with
  | "" => match cur with Some w => [w] | None => [] end
  | String c s' =>
      if is_space c
      then match cur with
           | Some w => w :: split_from None s'
           | None => split_from None s'
           end
      else split_from (Some (match cur with Some w => w | None => "" end
                             +:+ String c "")) s'
  end.

Definition split (s : string) : list string := split_from None s.

(** The lines of a text, each with its terminating newline, as the
    successive calls of [readline] return them. *)
Fixpoint readlines (s : string) : list string :=
  match s with
  | "" => []
  | String c s' =>
      if Ascii.eqb c nl then String c "" :: readlines s'
      else match readlines s' with
           | [] => [String c ""]
           | l :: ls => String c l :: ls
           end
  end.

(** [repr(s)] of a byte string: between single quotes, or between double
    quotes when [s] holds a single quote and no double quote; the quote
    in use and the backslash are escaped, tab, newline and carriage
    return are written as escapes, and the other characters outside the
    printable range as a hexadecimal escape. *)
Definition squote : ascii := "039"%char.

Definition dquote : ascii := "034"%char.

Definition backslash : ascii := "092"%char.

Definition hex_digit (n : N) : ascii :=
  match String.get (N.to_nat n) "0123456789abcdef" with
  | Some c => c
  | None => "0"%char
  end.

Definition repr_char (quote c : ascii) : string :=
  if Ascii.eqb c quote || Ascii.eqb c backslash
  then String backslash (String c "")
  else if Ascii.eqb c "009"%char then String backslash "t"
  else if Ascii.eqb c nl then String backslash "n"
  else if Ascii.eqb c "013"%char then String backslash "r"
  else if (N_of_ascii c <? 32)%N || (127 <=? N_of_ascii c)%N
  then String backslash
         (String "x"
            (String (hex_digit (N_of_ascii c / 16))
               (String (hex_digit (N_of_ascii c mod 16)) "")))
  else String c "".

Fixpoint repr_body (quote : ascii) (s : string) : string :=
  match s with
  | "" => String quote ""
  | String c s' => repr_char quote c +:+ repr_body quote s'
  end.

Definition repr (s : string) : string :=
  let quote :=
    if any (Ascii.eqb squote) s && negb (any (Ascii.eqb dquote) s)
    then dquote else squote in
  String quote (repr_body quote s).

(** Byte-wise lexicographic order, the order of [sorted] on strings. *)
Definition le (a b : string) : Prop := String.leb a b = true.

Fixpoint insert_sorted (x : string) (l : list string) : list string :=
  match l with
  | [] => [x]
  | y :: l' => if String.leb x y then x :: l else y :: insert_sorted x l'
  end.

(** [sorted(l)] *)
Fixpoint sorted (l : list string) : list string :=
  match l with
  | [] => []
  | x :: l' => insert_sorted x (sorted l')
  end.

End Str.

(** ** Regular expressions

    The two patterns of the script are sequences of quantified character
    classes, literals and the end anchor.  [rmatch] is the backtracking
    search of [re.match] on such a sequence: a greedy quantifier tries
    the longest run first, a lazy one the shortest, and the first
    complete match wins.  The result lists the text consumed by each
    atom, from which the groups are read. *)

Module Re.

Inductive atom : Type :=
| One (cl : ascii -> bool)        (* a single character of the class *)
| Plus (cl : ascii -> bool)       (* cl+  *)
| Star (cl : ascii -> bool)       (* cl*  *)
| StarLazy (cl : ascii -> bool)   (* cl*? *)
| Lit (l : string)                (* literal text *)
| Eol.                            (* $ *)

Definition emit (p : string) (r : option (list string)) : option (list string) :=
  match r with Some ps => Some (p :: ps) | None => None end.

Definition push (c : ascii) (r : option (list string)) : option (list string) :=
  match r with Some (p :: ps) => Some (String c p :: ps) | _ => None end.

(** [$] without MULTILINE: at the end of the string, or just before a
    newline that ends the string. *)
Definition at_eol (s : string) : bool :=
  match s with
  | "" => true
  | String c "" => Ascii.eqb c Str.nl
  | _ => false
  end.

Fixpoint greedy (cl : ascii -> bool) (k : string -> option (list string))
    (s : string) : option (list string) :=
  match s with
  | String c s' =>
      if cl c
      then match push c (greedy cl k s') with
           | Some r => Some r
           | None => emit "" (k s)
           end
      else emit "" (k s)
  | "" => emit "" (k s)
  end.

Fixpoint lazy (cl : ascii -> bool) (k : string -> option (list string))
    (s : string) : option (list string) :=
  match emit "" (k s) with
  | Some r => Some r
  | None =>
      match s with
      | String c s' => if cl c then push c (lazy cl k s') else None
      | "" => None
      end
  end.

Fixpoint rmatch (r : list atom) : string -> option (list string) :=
  match r with
  | [] => fun _ => Some []
  | a :: r' =>
      let k := rmatch r' in
      match a with
      | One cl => fun s =>
          match s with
          | String c s' => if cl c then emit (String c "") (k s') else None
          | "" => None
          end
      | Plus cl => fun s =>
          match s with
          | String c s' => if cl c then push c (greedy cl k s') else None
          | "" => None
          end
      | Star cl => greedy cl k
      | StarLazy cl => lazy cl k
      | Lit l => fun s =>
          match Str.strip_prefix l s with
          | Some s' => emit l (k s')
          | None => None
          end
      | Eol => fun s => if at_eol s then emit "" (k s) else None
      end
  end.

End Re.

(** [re_header = re.compile(r'^=+\s+(?P<program>\w+)\s+=+$')].
    [match] anchors the search at the start of the line, where [^]
    holds. *)
Definition re_header : list Re.atom :=
  [Re.Plus Str.is_eq; Re.Plus Str.is_space; Re.Plus Str.is_word;
   Re.Plus Str.is_space; Re.Plus Str.is_eq; Re.Eol].

(** [re_header.match(line)], with [m1.groups()[0]] as the result. *)
Definition re_header_match (line : string) : option string :=
  match Re.rmatch re_header line with
  | Some [_; _; program; _; _; _] => Some program
  | _ => None
  end.

(** [re_summary]: at the start of the line, the group [program] is a
    word character followed by a lazy run of any characters; then comes
    the literal [" - "]; the group [description] is a greedy run of any
    characters, up to the end anchor. *)
Definition re_summary : list Re.atom :=
  [Re.One Str.is_word; Re.StarLazy Str.is_dot; Re.Lit " - ";
   Re.Star Str.is_dot; Re.Eol].

(** [re_summary.match(line)], with [m.groups()] as the result. *)
Definition re_summary_match (line : string) : option (string * string) :=
  match Re.rmatch re_summary line with
  | Some [c; rest; _; description; _] => Some (c +:+ rest, description)
  | _ => None
  end.

(** ** The manifest parser *)

(** A block is the list [[name]] or [[name, (summary_name, description)]]. *)
Inductive block : Type :=
| Block1 (header : string)
| Block2 (header : string) (summary : string * string).

(** The [yield block] guarded by [if block:]; the pending block is [None]
    for the empty list and [Some name] for [[name]]. *)
Definition flush (pending : option string) : list block :=
  match pending with
  | Some name => [Block1 name]
  | None => []
  end.

(** The loop of [parse_footer] over the lines still to be read. *)
Fixpoint parse_lines (pending : option string) (lines : list string)
    : list block :=
  match lines with
  | [] => flush pending
  | line :: rest =>
      match re_header_match line with
      | Some name => flush pending ++ parse_lines (Some name) rest
      | None =>
          match re_summary_match line with
          | Some groups =>
              match pending with
              | None => parse_lines None rest
              | Some name => Block2 name groups :: parse_lines None rest
              end
          | None => parse_lines pending rest
          end
      end
  end.

(** [parse_footer(fn)], on the text of the file [fn]. *)
Definition parse_footer (text : string) : list block :=
  parse_lines None (Str.readlines text).

(** The summary line as the specification words it: the name is the text
    before the first [" - "], the description the text after it. *)
Fixpoint split_first_sep (s : string) : option (string * string) :=
  match Str.strip_prefix " - " s with
  | Some d => Some ("", d)
  | None =>
      match s with
      | "" => None
      | String c s' =>
          match split_first_sep s' with
          | Some (n, d) => Some (String c n, d)
          | None => None
          end
      end
  end.

(** ** Exceptions and results *)

Inductive exn : Type :=
| KeyError (arg : string)
| ValueError (msg : string)
| IndexError (msg : string)
| IOError (path : string)
| OSError (path : string)
| NotModelled (what : string).

(** A computation that returns or raises. *)
Definition result (A : Type) : Type := exn + A.

(** ** The source archive

    [t = tarfile.open(...)]: the members of the archive in their order,
    each with its name and whether it is a directory. *)

Record TarInfo : Type := { name : string; isdir : bool }.

Definition TarFile : Type := list TarInfo.

(** [t.getnames()] *)
Definition getnames (t : TarFile) : list string := map name t.

(** [t.getmember(n)]: the last member of that name; [KeyError] when there
    is none, with the message that shows [repr(n)]. *)
Definition getmember (t : TarFile) (n : string) : result TarInfo :=
  match find (fun m => String.eqb (name m) n) (rev t) with
  | Some m => inr m
  | None => inl (KeyError ("filename " +:+ Str.repr n +:+ " not found"))
  end.

(** [names = [i for i in t.getnames() if i.startswith('./userApps/kent/src')]] *)
Definition names_of (t : TarFile) : list string :=
  filter (fun i => Str.startswith i "./userApps/kent/src" = true) (getnames t).

(** [[i for i in names if program in i and t.getmember(i).isdir()]] *)
Fixpoint hits_of (t : TarFile) (program : string) (names : list string)
    : result (list string) :=
  match names with
  | [] => inr []
  | i :: rest =>
      if Str.contains program i
      then match getmember t i with
           | inl e => inl e
           | inr m =>
               match hits_of t program rest with
               | inl e => inl e
               | inr hits => inr (if isdir m then i :: hits else hits)
               end
           end
      else hits_of t program rest
  end.

(** [program_subdir(program, names)], with the archive [t] it reads;
    [None] is Python's [None]. *)
Definition program_subdir (t : TarFile) (program : string)
    (names : list string) : result (option string) :=
  match hits_of t program names with
  | inl e => inl e
  | inr hits =>
      match Str.sorted hits with
      | [] => inr None
      | top :: _ => inr (Some (Str.replace "./userApps/" "" top))
      end
  end.

(** ** Tables *)

Definition VERSION : string := "324".

Definition problematic : gmap string string :=
  {[ "LiftSpec" := "liftSpec" ]}.

Definition resolve_header_and_summary_conflicts : gmap string string :=
  {[ "rmFaDups" := "rmFaDups" ]}.

(** The values are the texts that [dedent] returns for the literals of
    the script. *)
Definition manual_descriptions : gmap string string :=
  list_to_map [
    ("estOrient",
     Str.NL +:+
     "Read ESTs from a database and determine orientation based on" +:+ Str.NL +:+
     "estOrientInfo table or direction in gbCdnaInfo table.  Update" +:+ Str.NL +:+
     "PSLs so that the strand reflects the direction of transcription." +:+ Str.NL +:+
     "By default, PSLs where the direction can't be determined are dropped." +:+ Str.NL);
    ("fetchChromSizes",
     Str.NL +:+
     "used to fetch chrom.sizes information from UCSC for the given <db>" +:+ Str.NL);
    ("overlapSelect",
     Str.NL +:+
     "Select records based on overlapping chromosome ranges.  The ranges are" +:+ Str.NL +:+
     "specified in the selectFile, with each block specifying a range." +:+ Str.NL +:+
     "Records are copied from the inFile to outFile based on the selection" +:+ Str.NL +:+
     "criteria.  Selection is based on blocks or exons rather than entire" +:+ Str.NL +:+
     "range." +:+ Str.NL);
    ("pslCDnaFilter",
     Str.NL +:+
     "Filter cDNA alignments in psl format.  Filtering criteria are" +:+ Str.NL +:+
     "comparative, selecting near best in genome alignments for each given" +:+ Str.NL +:+
     "cDNA and non-comparative, based only on the quality of an individual" +:+ Str.NL +:+
     "alignment." +:+ Str.NL);
    ("pslHisto",
     Str.NL +:+
     "Collect counts on PSL alignments for making histograms. These then be" +:+ Str.NL +:+
     "analyzed with R, textHistogram, etc." +:+ Str.NL);
    ("pslSwap",
     Str.NL +:+
     "Swap target and query in psls" +:+ Str.NL);
    ("pslToBed",
     Str.NL +:+
     "transform a psl format file to a bed format file." +:+ Str.NL)
  ].

Definition SKIP : list string := ["sizeof"].

Definition custom_build_scripts : gmap string string :=
  {[ "fetchChromSizes" := "template-build-fetchChromSizes.sh" ]}.

(** ** Name resolution

    The first part of the loop body, up to the description: [None] is
    [continue]. *)

Definition mismatch_message (program summary_program : string) : string :=
  "mismatch in header and summary. header: '" +:+ program
  +:+ "'; summary: '" +:+ summary_program +:+ "'".

Definition resolve_block (b : block) : result (option (string * string)) :=
  match b with
  | Block2 program (summary_program, description) =>
      let program := default program (problematic !! program) in
      match Str.split summary_program with
      | [] => inl (IndexError "list index out of range")
      | summary_program :: _ =>
          let resolved :=
            if negb (String.eqb program summary_program)
            then match resolve_header_and_summary_conflicts !! program with
                 | Some p => inr p
                 | None =>
                     inl (ValueError (mismatch_message program summary_program))
                 end
            else inr program in
          match resolved with
          | inl e => inl e
          | inr program =>
              if bool_decide (program ∈ SKIP) then inr None
              else inr (Some (program, description))
          end
      end
  | Block1 program =>
      if bool_decide (program ∈ SKIP) then inr None
      else match manual_descriptions !! program with
           | Some description => inr (Some (program, description))
           | None => inl (KeyError program)
           end
  end.
(** ** Paths *)

Module Path.

(** [os.path.join(a, b)] *)
Definition join (a b : string) : string :=
  if Str.startswith b "/" then b
  else match a with
       | "" => b
       | _ => if Str.endswith a "/" then a +:+ b else a +:+ "/" +:+ b
       end.

(** The text up to and including the last slash. *)
Fixpoint head (p : string) : string :=
  match p with
  | "" => ""
  | String c p' => if Str.any Str.is_slash p then String c (head p') else ""
  end.

(** [h.rstrip('/')] *)
Fixpoint rstrip_slash (h : string) : string :=
  match h with
  | "" => ""
  | String c h' =>
      if Str.all Str.is_slash h then "" else String c (rstrip_slash h')
  end.

(** [os.path.dirname(p)] *)
Definition dirname (p : string) : string :=
  let h := head p in
  if Str.all Str.is_slash h then h else rstrip_slash h.

End Path.

(** ** The file system and the console

    Directories and files are identified by their path strings, as the
    script writes them: paths are not normalised and the directories
    above a created directory are not tracked.  [console] holds the lines
    printed so far. *)

Record state : Type := {
  dirs : gset string;
  files : gmap string string;
  console : list string
}.

Definition set_dirs (d : gset string) (st : state) : state :=
  {| dirs := d; files := files st; console := console st |}.

Definition set_files (f : gmap string string) (st : state) : state :=
  {| dirs := dirs st; files := f; console := console st |}.

Definition set_console (c : list string) (st : state) : state :=
  {| dirs := dirs st; files := files st; console := c |}.

(** A statement: it returns or raises, and leaves a state either way. *)
Definition M (A : Type) : Type := state -> result A * state.

Definition ret {A} (a : A) : M A := fun st => (inr a, st).

Definition raise {A} (e : exn) : M A := fun st => (inl e, st).

Definition bind {A B} (m : M A) (k : A -> M B) : M B :=
  fun st =>
    match m st with
    | (inl e, st') => (inl e, st')
    | (inr a, st') => k a st'
    end.

Definition lift {A} (r : result A) : M A := fun st => (r, st).

Declare Scope py_scope.
Delimit Scope py_scope with py.
Notation "x <- m ;; k" := (bind m (fun x => k))
  (at level 100, m at next level, right associativity) : py_scope.
Notation "m ;; k" := (bind m (fun _ => k))
  (at level 100, right associativity) : py_scope.

Module Os.

(** [os.path.exists(p)] *)
Definition exists_ (p : string) : M bool :=
  fun st => (inr (bool_decide (p ∈ dirs st) || bool_decide (is_Some (files st !! p))), st).

(** [os.makedirs(p)] where the directory above [p] is there: [p] is
    created, and [OSError] is raised when [p] exists.  The creation of
    missing directories above [p], and the failure of the call when a
    path above [p] is a regular file, are outside the model. *)
Definition makedirs (p : string) : M unit :=
  fun st =>
    if bool_decide (p ∈ dirs st) || bool_decide (is_Some (files st !! p))
    then (inl (OSError p), st)
    else (inr tt, set_dirs ({[ p ]} ∪ dirs st) st).

(** The directory that holds [p] exists: the working directory and the
    root always do. *)
Definition parent_ok (p : string) (st : state) : bool :=
  let d := Path.dirname p in
  Str.all Str.is_slash d || bool_decide (d ∈ dirs st).

(** [open(p, 'w')]: the file is created or truncated; [IOError] when [p]
    is a directory or lies in no directory. *)
Definition open_w (p : string) : M unit :=
  fun st =>
    if negb (bool_decide (p ∈ dirs st)) && parent_ok p st
    then (inr tt, set_files (<[ p := "" ]> (files st)) st)
    else (inl (IOError p), st).

(** [fout.write(content)] on the file opened at [p], closed right after. *)
Definition write (p content : string) : M unit :=
  fun st => (inr tt, set_files (<[ p := content ]> (files st)) st).

(** [open(p).read()] *)
Definition read (p : string) : M string :=
  fun st =>
    match files st !! p with
    | Some content => (inr content, st)
    | None => (inl (IOError p), st)
    end.

(** [print(line)] *)
Definition print (line : string) : M unit :=
  fun st => (inr tt, set_console (console st ++ [line]) st).

(** [with open(p, 'w') as fout: fout.write(<content>)]: the file is opened
    before the content is computed. *)
Definition with_open_w (p : string) (content : M string) : M unit :=
  (open_w p ;; c <- content ;; write p c)%py.

End Os.

(** ** [str.format]

    The values the script formats are strings and [None].  The fields
    modelled are the plain keyword fields [{name}] and the escapes
    [{{] and [}}]; attribute and index access, conversions and format
    specifications are reported as [NotModelled]. *)

Inductive pyval : Type :=
| PStr (s : string)
| PNone.

(** [str(v)] *)
Definition str_of (v : pyval) : string :=
  match v with
  | PStr s => s
  | PNone => "None"
  end.

Module Format.

Definition is_digit (c : ascii) : bool :=
  ((48 <=? N_of_ascii c) && (N_of_ascii c <=? 57))%N.

Definition special (c : ascii) : bool :=
  Ascii.eqb c "."%char || Ascii.eqb c "["%char || Ascii.eqb c "!"%char
  || Ascii.eqb c ":"%char || Ascii.eqb c "{"%char.

(** The value of the field [f]: an empty or numeric name is positional,
    and the script passes no positional argument. *)
Definition field (kw : gmap string pyval) (f : string) : result string :=
  if Str.all is_digit f then inl (IndexError "tuple index out of range")
  else match kw !! f with
       | Some v => inr (str_of v)
       | None => inl (KeyError f)
       end.

Definition prepend (s : string) (r : result string) : result string :=
  match r with
  | inl e => inl e
  | inr out => inr (s +:+ out)
  end.

(** [cur] is the name of the field being read, [None] in literal text. *)
Fixpoint format_from (cur : option string) (kw : gmap string pyval)
    (s : string) : result string :=
  match s with
  | "" =>
      match cur with
      | None => inr ""
      | Some _ => inl (ValueError "expected '}' before end of string")
      end
  | String c s' =>
      match cur with
      | None =>
          if Ascii.eqb c "{"%char then
            match s' with
            | String "{"%char s'' => prepend "{" (format_from None kw s'')
            | _ => format_from (Some "") kw s'
            end
          else if Ascii.eqb c "}"%char then
            match s' with
            | String "}"%char s'' => prepend "}" (format_from None kw s'')
            | _ => inl (ValueError "Single '}' encountered in format string")
            end
          else prepend (String c "") (format_from None kw s')
      | Some f =>
          if Ascii.eqb c "}"%char then
            match field kw f with
            | inl e => inl e
            | inr v => prepend v (format_from None kw s')
            end
          else if special c then inl (NotModelled "format field")
          else format_from (Some (f +:+ String c "")) kw s'
      end
  end.

End Format.

(** [template.format(...)] with the keyword arguments [kw]. *)
Definition pyformat (template : string) (kw : gmap string pyval)
    : result string :=
  Format.format_from None kw template.

(** ** The pipeline *)

(** What the run is given: the directory of the script
    ([os.path.dirname(__file__)]), the archive opened as [t] and the text
    of the manifest downloaded as [FOOTER].  The downloads themselves are
    outside the model. *)
Record env : Type := {
  script_dir : string;
  t : TarFile;
  footer : string
}.

(** [recipes_dir = os.path.join(os.path.dirname(__file__), '..', '..', 'recipes')] *)
Definition recipes_dir (e : env) : string :=
  Path.join (Path.join (Path.join (script_dir e) "..") "..") "recipes".

(** The templates read once, before the loop. *)
Record templates : Type := {
  meta_template : string;
  build_template : string;
  test_template : string
}.

Definition package_of (program : string) : string :=
  "ucsc-" +:+ Str.lower program.

Definition recipe_dir_of (e : env) (program : string) : string :=
  Path.join (recipes_dir e) (package_of program).

(** The second part of the loop body, from the package name on. *)
Definition write_recipe (e : env) (tp : templates)
    (program description : string) : M unit :=
  (let package := package_of program in
   let recipe_dir := Path.join (recipes_dir e) package in
   subdir <- lift (program_subdir (t e) program (names_of (t e))) ;;
   if bool_decide (subdir = None)
      && negb (bool_decide (is_Some (custom_build_scripts !! program)))
   then Os.print ("Skipping " +:+ program)
   else
     (ex <- Os.exists_ recipe_dir ;;
      if negb ex then Os.makedirs recipe_dir else ret tt) ;;
     Os.with_open_w (Path.join recipe_dir "meta.yaml")
       (lift (pyformat (meta_template tp)
                (<[ "program" := PStr program ]>
                 (<[ "package" := PStr package ]>
                  (<[ "summary" := PStr description ]>
                   (<[ "version" := PStr VERSION ]> ∅)))))) ;;
     Os.with_open_w (Path.join recipe_dir "build.sh")
       (_template <- Os.read (default "template-build.sh"
                                (custom_build_scripts !! program)) ;;
        source_dir <- lift (program_subdir (t e) program (names_of (t e))) ;;
        lift (pyformat _template
                (<[ "program" := PStr program ]>
                 (<[ "program_source_dir" :=
                       match source_dir with
                       | Some d => PStr d
                       | None => PNone
                       end ]> ∅)))) ;;
     Os.with_open_w (Path.join recipe_dir "run_test.sh")
       (lift (pyformat (test_template tp)
                (<[ "program" := PStr program ]> ∅))) ;;
     Os.with_open_w (Path.join recipe_dir "include.patch")
       (Os.read "include.patch"))%py.

(** The body of [for block in parse_footer('FOOTER')]. *)
Definition loop_body (e : env) (tp : templates) (b : block) : M unit :=
  (r <- lift (resolve_block b) ;;
   match r with
   | None => ret tt
   | Some (program, description) => write_recipe e tp program description
   end)%py.

Fixpoint for_blocks (e : env) (tp : templates) (blocks : list block)
    : M unit :=
  match blocks with
  | [] => ret tt
  | b :: rest => (loop_body e tp b ;; for_blocks e tp rest)%py
  end.

(** The script from the reading of the templates on. *)
Definition main (e : env) : M unit :=
  (meta <- Os.read "template-meta.yaml" ;;
   build <- Os.read "template-build.sh" ;;
   test <- Os.read "template-run_test.sh" ;;
   for_blocks e
     {| meta_template := meta; build_template := build; test_template := test |}
     (parse_footer (footer e)))%py.

(** ** Vocabulary of the statements *)

(** A line body: no newline inside. *)
Definition no_nl (s : string) : Prop := Str.all Str.is_dot s = true.

(** What may follow the body of a line: its newline, or nothing at the
    end of the text. *)
Definition line_end (tl : string) : Prop := tl = Str.NL \/ tl = "".

(** A text is complete when it is empty or ends with a newline. *)
Definition complete (p : string) : Prop := p = "" \/ exists q, p = q +:+ Str.NL.

(** The first element of a list is a lower bound of the list. *)
Definition head_least (l : list string) : Prop :=
  match l with
  | [] => True
  | top :: _ => forall y, y ∈ l -> Str.le top y
  end.

(** An entry of the listing is a hit for [program] when its path holds
    the program name and its member of the archive is a directory. *)
Definition is_hit (t : TarFile) (program i : string) : Prop :=
  (exists a b, i = a +:+ program +:+ b)
  /\ exists m, getmember t i = inr m /\ isdir m = true.


(** ** Invariants of a run *)

Definition has_slash (p : string) : Prop := Str.any Str.is_slash p = true.

(** [b] is a state that a run reaches from [a]: directories and files
    stay, a file never turns into a directory, and the files of the
    working directory itself keep their content. *)
Record Future (a b : state) : Prop := {
  fut_dirs : dirs a ⊆ dirs b;
  fut_files : forall p, is_Some (files a !! p) -> is_Some (files b !! p);
  fut_not_dir : forall p, is_Some (files a !! p) -> p ∉ dirs a -> p ∉ dirs b;
  fut_frame : forall p, ~ has_slash p -> files b !! p = files a !! p
}.

(** A second run, in state [s'], follows a first run that is in state
    [s] and will end in [s1]: the second run sees the directories and
    the file names of [s1], and each file holds what the first run has
    written so far or what it holds at the end of the first run. *)
Record Cover (s s1 s' : state) : Prop := {
  cov_dirs : dirs s' = dirs s1;
  cov_dom : forall p, is_Some (files s' !! p) <-> is_Some (files s1 !! p);
  cov_files : forall p,
    files s' !! p = files s !! p \/ files s' !! p = files s1 !! p
}.

(** [m] moves the state to one of its futures. *)
Definition fut {A} (m : M A) : Prop := forall s, Future s (snd (m s)).

(** [m] runs in the second run as it did in the first: with the same
    result, and to a state that follows the first run again. *)
Definition sim {A} (m : M A) : Prop :=
  forall s s1 s',
    Future (snd (m s)) s1 ->
    (forall x, fst (m s) = inl x -> s1 = snd (m s)) ->
    Cover s s1 s' ->
    fst (m s') = fst (m s) /\ Cover (snd (m s)) s1 (snd (m s')).

(** A statement is repeatable when it has both properties. *)
Definition repeatable {A} (m : M A) : Prop := fut m /\ sim m.

(** Statements that print nothing, and statements that keep the file
    [q] as it is. *)
Definition silent {A} (m : M A) : Prop :=
  forall s, console (snd (m s)) = console s.


(** ** Sample inputs *)

Definition listing_AB : TarFile :=
  [ {| name := "./userApps/kent/src/toolA/"; isdir := true |};
    {| name := "./userApps/kent/src/toolAB/"; isdir := true |} ].

(** An archive with the sources of [addCols]. *)
Definition sample_tar : TarFile :=
  [ {| name := "./userApps"; isdir := true |};
    {| name := "./userApps/kent/src/utils/addCols"; isdir := true |};
    {| name := "./userApps/kent/src/utils/addCols/addCols.c"; isdir := false |} ].

Definition sample_env (manifest : string) : env :=
  {| script_dir := "scripts/ucsc"; t := sample_tar; footer := manifest |}.

Definition sample_templates : templates :=
  {| meta_template := "name: {package} # {program} {version}: {summary}";
     build_template := "cd {program_source_dir} && make {program}";
     test_template := "{program} 2>&1 | grep usage" |}.

(** The working directory before the first run: the templates and the
    patch, and no recipe. *)
Definition sample_state : state :=
  {| dirs := ∅;
     files :=
       list_to_map [
         ("template-meta.yaml", meta_template sample_templates);
         ("template-build.sh", build_template sample_templates);
         ("template-build-fetchChromSizes.sh",
          "cp {program_source_dir}/{program} $PREFIX/bin");
         ("template-run_test.sh", test_template sample_templates);
         ("include.patch", "--- a/inc/common.mk")
       ];
     console := [] |}.

(** ** Further vocabulary *)

(** The name a block was opened with. *)
Definition block_header (b : block) : string :=
  match b with
  | Block1 header => header
  | Block2 header _ => header
  end.

(** The program names of the header lines among [lines], in their
    order. *)
Fixpoint header_names (lines : list string) : list string :=
  match lines with
  | [] => []
  | line :: rest =>
      match re_header_match line with
      | Some name => name :: header_names rest
      | None => header_names rest
      end
  end.

(** A non-empty run of characters of one class. *)
Definition run_of (cl : ascii -> bool) (p : string) : Prop :=
  p <> "" /\ Str.all cl p = true.

(** The shape of the blocks the parser yields: the header name is a
    non-empty word; the summary name of a two-part block starts with a
    word character, holds no newline and has a first token; the
    description holds no newline. *)
Definition block_shape (b : block) : Prop :=
  run_of Str.is_word (block_header b)
  /\ match b with
     | Block1 _ => True
     | Block2 _ (summary_name, description) =>
         (exists c r, summary_name = String c r /\ Str.is_word c = true)
         /\ no_nl summary_name
         /\ no_nl description
         /\ exists token more, Str.split summary_name = token :: more
     end.

(** [A-Z] *)
Definition is_upper (c : ascii) : bool := Str.between 65 90 c.

(** The next character is not of the class. *)
Definition stops (cl : ascii -> bool) (s : string) : Prop :=
  match s with
  | "" => True
  | String c _ => cl c = false
  end.

(** The files of a recipe. *)
Definition recipe_files : list string :=
  ["meta.yaml"; "build.sh"; "run_test.sh"; "include.patch"].

(** [p] is the path of a file of the recipe of some program. *)
Definition recipe_path (e : env) (p : string) : Prop :=
  exists program f,
    f ∈ recipe_files /\ p = Path.join (recipe_dir_of e program) f.

(** [m] changes no file but recipe files and creates no directory but
    recipe directories. *)
Definition confined (e : env) {A} (m : M A) : Prop :=
  forall s,
    (forall p, ~ recipe_path e p -> files (snd (m s)) !! p = files s !! p)
    /\ (forall q, q ∈ dirs (snd (m s)) ->
                  q ∈ dirs s \/ exists program, q = recipe_dir_of e program).

(** [m] prints nothing but skip notices. *)
Definition notices {A} (m : M A) : Prop :=
  forall s,
    exists programs,
      console (snd (m s))
      = console s ++ map (fun program => "Skipping " +:+ program) programs.

(** The keyword arguments of the build template. *)
Definition build_kw (program : string) (source_dir : option string)
    : gmap string pyval :=
  <[ "program" := PStr program ]>
    (<[ "program_source_dir" :=
          match source_dir with
          | Some d => PStr d
          | None => PNone
          end ]> ∅).

(** The keyword arguments of the metadata template. *)
Definition meta_kw (program description : string) : gmap string pyval :=
  <[ "program" := PStr program ]>
    (<[ "package" := PStr (package_of program) ]>
       (<[ "summary" := PStr description ]>
          (<[ "version" := PStr VERSION ]> ∅))).

(** The state after the first three files of a recipe. *)
Definition after_test (d meta build test : string) (st : state) : state :=
  {| dirs := {[ d ]} ∪ dirs st;
     files :=
       <[ Path.join d "run_test.sh" := test ]>
         (<[ Path.join d "build.sh" := build ]>
            (<[ Path.join d "meta.yaml" := meta ]> (files st)));
     console := console st |}.

(** * Properties *)

(** ** The definitions at work *)

Example re_header_addCols :
  re_header_match
    ("========   addCols   ====================================" +:+ Str.NL)
  = Some "addCols".
Proof. vm_compute. reflexivity. Qed.

Example re_summary_addCols :
  re_summary_match ("addCols - Sum columns in a text file." +:+ Str.NL)
  = Some ("addCols", "Sum columns in a text file.").
Proof. vm_compute. reflexivity. Qed.

Example re_summary_twice :
  re_summary_match "A - B - C" = Some ("A", "B - C").
Proof. vm_compute. reflexivity. Qed.

Example re_summary_version :
  re_summary_match "bedGraphToBigWig v 4 - Convert a bedGraph file"
  = Some ("bedGraphToBigWig v 4", "Convert a bedGraph file").
Proof. vm_compute. reflexivity. Qed.

Example split_version : Str.split "bedGraphToBigWig v 4" = ["bedGraphToBigWig"; "v"; "4"].
Proof. vm_compute. reflexivity. Qed.

Example parse_example :
  parse_footer ("junk - x" +:+ Str.NL +:+ "=== a ===" +:+ Str.NL +:+ "=== b ===" +:+ Str.NL
                +:+ "b - does b - well" +:+ Str.NL +:+ "== c ==")
  = [Block1 "a"; Block2 "b" ("b", "does b - well"); Block1 "c"].
Proof. vm_compute. reflexivity. Qed.

Example replace_example : Str.replace "./userApps/" "" "./userApps/kent/src/./userApps/x" = "kent/src/x".
Proof. vm_compute. reflexivity. Qed.

Example sorted_example : Str.sorted ["b"; "ab"; "a"; "B"] = ["B"; "a"; "ab"; "b"].
Proof. vm_compute. reflexivity. Qed.

(** A run on a manifest of three blocks: a located program, a program
    with a custom build script that the archive does not hold, and a
    described program that is nowhere in the archive. *)
Example main_sample :
  let manifest :=
    "======== addCols ========" +:+ Str.NL
    +:+ "addCols - Sum columns in a text file." +:+ Str.NL
    +:+ "======== fetchChromSizes ========" +:+ Str.NL
    +:+ "    fetchChromSizes with no summary line" +:+ Str.NL
    +:+ "======== pslSwap ========" +:+ Str.NL in
  let out := main (sample_env manifest) sample_state in
  fst out = inr tt
  /\ elements (dirs (snd out))
     = ["scripts/ucsc/../../recipes/ucsc-addcols";
        "scripts/ucsc/../../recipes/ucsc-fetchchromsizes"]
  /\ files (snd out) !! "scripts/ucsc/../../recipes/ucsc-addcols/build.sh"
     = Some "cd kent/src/utils/addCols && make addCols"
  /\ files (snd out) !! "scripts/ucsc/../../recipes/ucsc-addcols/run_test.sh"
     = Some "addCols 2>&1 | grep usage"
  /\ files (snd out) !! "scripts/ucsc/../../recipes/ucsc-addcols/include.patch"
     = Some "--- a/inc/common.mk"
  /\ files (snd out)
       !! "scripts/ucsc/../../recipes/ucsc-fetchchromsizes/build.sh"
     = Some "cp None/fetchChromSizes $PREFIX/bin"
  /\ console (snd out) = ["Skipping pslSwap"].
Proof. vm_compute. repeat split; reflexivity. Qed.

(** A template that names an unknown field leaves the file it was to
    fill empty. *)
Example unknown_field_sample :
  Os.with_open_w "recipes/ucsc-a/meta.yaml"
    (lift (pyformat "name: {pkg}" (<[ "package" := PStr "ucsc-a" ]> ∅)))
    {| dirs := {[ "recipes/ucsc-a" ]}; files := ∅; console := [] |}
  = (inl (KeyError "pkg"),
     {| dirs := {[ "recipes/ucsc-a" ]};
        files := {[ "recipes/ucsc-a/meta.yaml" := "" ]};
        console := [] |}).
Proof. vm_compute. reflexivity. Qed.

(** The text of a name in an error message. *)
Example repr_plain : Str.repr "./userApps/kent/src/toolA.c" = "'./userApps/kent/src/toolA.c'".
Proof. reflexivity. Qed.

Example repr_apostrophe :
  Str.repr "it's"
  = String Str.dquote ("it's" +:+ String Str.dquote "").
Proof. reflexivity. Qed.

Example repr_both_quotes :
  Str.repr (String "a" (String Str.squote (String Str.dquote "b")))
  = String "'" (String "a" (String Str.backslash (String "'"
      (String Str.dquote (String "b" "'"))))).
Proof. reflexivity. Qed.

Example repr_escapes :
  Str.repr (String "a" (String Str.nl (String "127" (String Str.backslash ""))))
  = "'a" +:+ String Str.backslash "n" +:+ String Str.backslash "x7f"
    +:+ String Str.backslash (String Str.backslash "'").
Proof. reflexivity. Qed.

(** ** Strings *)

Module StrFacts.

Lemma sapp_nil_r (s : string) : s +:+ "" = s.
Proof. induction s as [|c s IH]; simpl; [reflexivity | now rewrite IH]. Qed.

Lemma sapp_assoc (a b c : string) : (a +:+ b) +:+ c = a +:+ (b +:+ c).
Proof. induction a as [|x a IH]; simpl; [reflexivity | now rewrite IH]. Qed.

Lemma all_app p (a b : string) : Str.all p (a +:+ b) = Str.all p a && Str.all p b.
Proof.
  induction a as [|x a IH]; simpl; [reflexivity |].
  rewrite IH. now rewrite andb_assoc.
Qed.

Lemma any_app p (a b : string) : Str.any p (a +:+ b) = Str.any p a || Str.any p b.
Proof.
  induction a as [|x a IH]; simpl; [reflexivity |].
  rewrite IH. now rewrite orb_assoc.
Qed.

Lemma strip_prefix_app (pre s : string) : Str.strip_prefix pre (pre +:+ s) = Some s.
Proof.
  induction pre as [|x pre IH]; simpl; [reflexivity |].
  now rewrite Ascii.eqb_refl.
Qed.

Lemma strip_prefix_inv (pre s r : string) :
  Str.strip_prefix pre s = Some r -> s = pre +:+ r.
Proof.
  revert s. induction pre as [|x pre IH]; intros s H; simpl in *.
  - now injection H as ->.
  - destruct s as [|y s]; [discriminate |].
    destruct (Ascii.eqb_spec x y) as [->|]; [|discriminate].
    now rewrite (IH _ H).
Qed.

Lemma strip_prefix_more (pre s r tl : string) :
  Str.strip_prefix pre s = Some r ->
  Str.strip_prefix pre (s +:+ tl) = Some (r +:+ tl).
Proof.
  intros H. apply strip_prefix_inv in H as ->.
  rewrite sapp_assoc. apply strip_prefix_app.
Qed.

Lemma startswith_iff (s pre : string) :
  Str.startswith s pre = true <-> exists r, s = pre +:+ r.
Proof.
  unfold Str.startswith. split.
  - destruct (Str.strip_prefix pre s) as [r|] eqn:E; [|discriminate].
    intros _. exists r. now apply strip_prefix_inv.
  - intros [r ->]. now rewrite strip_prefix_app.
Qed.

(** [sub in s] holds exactly when [sub] occurs in [s]. *)
Lemma contains_iff (sub s : string) :
  Str.contains sub s = true <-> exists a b, s = a +:+ sub +:+ b.
Proof.
  induction s as [|c s IH].
  - simpl. rewrite orb_false_r, startswith_iff. split.
    + intros [r Hr]. exists "", r. exact Hr.
    + intros [a [b H]]. destruct a; simpl in H; [eauto | discriminate].
  - cbn [Str.contains]. rewrite orb_true_iff, startswith_iff, IH. split.
    + intros [[r Hr] | [a [b H]]].
      * exists "", r. exact Hr.
      * exists (String c a), b. simpl. now rewrite H.
    + intros [a [b H]]. destruct a as [|x a]; simpl in H.
      * left. eauto.
      * right. injection H as _ H. eauto.
Qed.

(** *** The order of [sorted] *)

Lemma ascii_compare_refl (c : ascii) : Ascii.compare c c = Eq.
Proof. unfold Ascii.compare. apply N.compare_refl. Qed.

Lemma ascii_compare_lt_trans (a b c : ascii) :
  Ascii.compare a b = Lt -> Ascii.compare b c = Lt -> Ascii.compare a c = Lt.
Proof.
  unfold Ascii.compare. rewrite !N.compare_lt_iff. lia.
Qed.

Lemma le_refl (s : string) : Str.le s s.
Proof.
  unfold Str.le, String.leb.
  induction s as [|c s IH]; simpl; [reflexivity |].
  now rewrite ascii_compare_refl.
Qed.

Lemma le_trans (a b c : string) : Str.le a b -> Str.le b c -> Str.le a c.
Proof.
  unfold Str.le, String.leb. revert b c.
  induction a as [|x a IH]; intros [|y b] [|z c]; simpl; try easy.
  destruct (Ascii.compare x y) eqn:Exy; try easy;
    destruct (Ascii.compare y z) eqn:Eyz; try easy.
  - apply Ascii.compare_eq_iff in Exy as ->, Eyz as ->.
    rewrite ascii_compare_refl. apply IH.
  - apply Ascii.compare_eq_iff in Exy as ->. now rewrite Eyz.
  - apply Ascii.compare_eq_iff in Eyz as <-. now rewrite Exy.
  - now rewrite (ascii_compare_lt_trans _ _ _ Exy Eyz).
Qed.

Lemma le_total (a b : string) : Str.le a b \/ Str.le b a.
Proof. apply String.leb_total. Qed.

Lemma insert_sorted_elem (x y : string) (l : list string) :
  y ∈ Str.insert_sorted x l <-> y = x \/ y ∈ l.
Proof.
  induction l as [|z l IH]; simpl.
  - rewrite list_elem_of_singleton, elem_of_nil. tauto.
  - destruct (String.leb x z); rewrite !elem_of_cons, ?IH; tauto.
Qed.

Lemma sorted_elem (y : string) (l : list string) : y ∈ Str.sorted l <-> y ∈ l.
Proof.
  induction l as [|x l IH]; simpl; [reflexivity |].
  rewrite insert_sorted_elem, elem_of_cons, IH. tauto.
Qed.

Lemma insert_sorted_least (x : string) (l : list string) :
  head_least l -> head_least (Str.insert_sorted x l).
Proof.
  destruct l as [|z l]; simpl.
  - intros _ y Hy. apply list_elem_of_singleton in Hy as ->. apply le_refl.
  - intros H. destruct (String.leb x z) eqn:E; simpl.
    + intros y Hy. apply elem_of_cons in Hy as [->|Hy]; [apply le_refl |].
      apply le_trans with z; [exact E | now apply H].
    + intros y Hy. apply elem_of_cons in Hy as [->|Hy]; [apply le_refl |].
      apply insert_sorted_elem in Hy as [->|Hy].
      * destruct (le_total x z) as [Hxz|Hzx]; [|exact Hzx].
        unfold Str.le in Hxz. congruence.
      * apply H. now right.
Qed.

Lemma sorted_least (l : list string) : head_least (Str.sorted l).
Proof.
  induction l as [|x l IH]; simpl; [exact I |].
  now apply insert_sorted_least.
Qed.

Lemma sorted_nil (l : list string) : Str.sorted l = [] <-> l = [].
Proof.
  split; [|now intros ->].
  destruct l as [|x l]; [reflexivity |]. intros H.
  assert (Hx : x ∈ Str.sorted (x :: l)) by (apply sorted_elem; left).
  rewrite H in Hx. now apply elem_of_nil in Hx.
Qed.

End StrFacts.
(** ** The patterns *)

Module ReFacts.

Import StrFacts.

Lemma no_nl_cons (c : ascii) (s : string) :
  no_nl (String c s) <-> Str.is_dot c = true /\ no_nl s.
Proof. unfold no_nl. simpl. apply andb_true_iff. Qed.

Lemma no_nl_app (a b : string) : no_nl (a +:+ b) <-> no_nl a /\ no_nl b.
Proof. unfold no_nl. rewrite all_app. apply andb_true_iff. Qed.

Lemma word_is_dot (c : ascii) : Str.is_word c = true -> Str.is_dot c = true.
Proof.
  unfold Str.is_dot. destruct (Ascii.eqb_spec c Str.nl) as [->|]; [|reflexivity].
  vm_compute. discriminate.
Qed.

Lemma word_not_eq (c : ascii) : Str.is_word c = true -> Str.is_eq c = false.
Proof.
  unfold Str.is_eq. destruct (Ascii.eqb_spec c "="%char) as [->|]; [|reflexivity].
  vm_compute. discriminate.
Qed.

Lemma word_not_blank (c : ascii) : Str.is_word c = true -> Ascii.eqb " "%char c = false.
Proof.
  destruct (Ascii.eqb_spec " "%char c) as [<-|]; [|reflexivity].
  vm_compute. discriminate.
Qed.

Lemma all_word_no_nl (s : string) : Str.all Str.is_word s = true -> no_nl s.
Proof.
  unfold no_nl. induction s as [|c s IH]; simpl; [reflexivity |].
  intros [Hc Hs]%andb_true_iff. now rewrite (word_is_dot _ Hc), IH.
Qed.

(** *** Inversion of the quantifiers *)

Lemma push_inv c r out :
  Re.push c r = Some out ->
  exists p ps, r = Some (p :: ps) /\ out = String c p :: ps.
Proof.
  destruct r as [[|p ps]|]; simpl; try discriminate.
  intros [= <-]. eauto.
Qed.

Lemma emit_inv p r out :
  Re.emit p r = Some out -> exists ps, r = Some ps /\ out = p :: ps.
Proof. destruct r as [ps|]; simpl; [|discriminate]. intros [= <-]. eauto. Qed.

Lemma greedy_inv cl k s out :
  Re.greedy cl k s = Some out ->
  exists p ps s',
    out = p :: ps /\ Str.all cl p = true /\ s = p +:+ s' /\ k s' = Some ps.
Proof.
  revert out. induction s as [|c s IH]; intros out H; simpl in H.
  - apply emit_inv in H as [ps [Hk ->]]. exists "", ps, "". auto.
  - assert (Hstop : Re.emit "" (k (String c s)) = Some out ->
            exists p ps s', out = p :: ps /\ Str.all cl p = true
                            /\ String c s = p +:+ s' /\ k s' = Some ps).
    { intros [ps [Hk ->]]%emit_inv. exists "", ps, (String c s). auto. }
    destruct (cl c) eqn:Hc; [|auto].
    destruct (Re.push c (Re.greedy cl k s)) as [r|] eqn:E; [|auto].
    injection H as ->.
    apply push_inv in E as [p [ps [Hg ->]]].
    destruct (IH _ Hg) as [p' [ps' [s' [[= <- <-] [Hall [-> Hk]]]]]].
    exists (String c p), ps, s'. simpl. rewrite Hc, Hall. auto.
Qed.

Lemma plus_inv cl r s out :
  Re.rmatch (Re.Plus cl :: r) s = Some out ->
  exists p ps s',
    out = p :: ps /\ Str.all cl p = true /\ p <> "" /\ s = p +:+ s'
    /\ Re.rmatch r s' = Some ps.
Proof.
  simpl. destruct s as [|c s]; [discriminate |].
  destruct (cl c) eqn:Hc; [|discriminate].
  intros [p [ps [Hg ->]]]%push_inv.
  apply greedy_inv in Hg as [p' [ps' [s' [[= <- <-] [Hall [-> Hk]]]]]].
  exists (String c p), ps, s'. simpl. rewrite Hc, Hall. auto.
Qed.

(** A header line names a program made of word characters. *)
Lemma re_header_word (line name : string) :
  re_header_match line = Some name ->
  Str.all Str.is_word name = true /\ name <> "".
Proof.
  unfold re_header_match, re_header.
  destruct (Re.rmatch _ line) as [out|] eqn:E; [|discriminate].
  apply plus_inv in E as (p1 & o1 & s1 & -> & _ & _ & _ & E).
  apply plus_inv in E as (p2 & o2 & s2 & -> & _ & _ & _ & E).
  apply plus_inv in E as (p3 & o3 & s3 & -> & Hw & Hne & _ & E).
  destruct o3 as [|? [|? [|? [|? ?]]]]; try discriminate.
  intros [= <-]. auto.
Qed.

(** A header line starts with [=], a summary line with a word character. *)
Lemma re_header_first (c : ascii) (s : string) :
  Str.is_eq c = false -> re_header_match (String c s) = None.
Proof. intros H. unfold re_header_match. simpl. now rewrite H. Qed.

Lemma re_summary_first (line : string) (g : string * string) :
  re_summary_match line = Some g ->
  exists c s, line = String c s /\ Str.is_word c = true.
Proof.
  unfold re_summary_match. destruct line as [|c s]; simpl; [discriminate |].
  destruct (Str.is_word c) eqn:Hc; [|discriminate].
  intros _. exists c, s. auto.
Qed.

Lemma summary_not_header (line : string) (g : string * string) :
  re_summary_match line = Some g -> re_header_match line = None.
Proof.
  intros (c & s & -> & Hc)%re_summary_first.
  apply re_header_first. now apply word_not_eq.
Qed.

(** *** The summary pattern splits at the first separator *)

Lemma rest_of_line (d tl : string) :
  no_nl d -> line_end tl ->
  Re.rmatch [Re.Star Str.is_dot; Re.Eol] (d +:+ tl) = Some [d; ""].
Proof.
  intros Hd Htl. induction d as [|c d IH].
  - destruct Htl as [-> | ->]; reflexivity.
  - apply no_nl_cons in Hd as [Hc Hd]. specialize (IH Hd).
    simpl in *. now rewrite Hc, IH.
Qed.

Lemma sep_at_end (s tl : string) :
  line_end tl ->
  Str.strip_prefix " - " s = None -> Str.strip_prefix " - " (s +:+ tl) = None.
Proof.
  intros [-> | ->]; [|now rewrite sapp_nil_r].
  destruct s as [|a [|b [|c s]]]; simpl;
    repeat match goal with
           | |- context [Ascii.eqb ?x ?y] => destruct (Ascii.eqb x y)
           end; easy.
Qed.

Lemma rmatch_lit (l : string) (r : list Re.atom) (s : string) :
  Re.rmatch (Re.Lit l :: r) s
  = match Str.strip_prefix l s with
    | Some s' => Re.emit l (Re.rmatch r s')
    | None => None
    end.
Proof. reflexivity. Qed.

Lemma rmatch_one cl (r : list Re.atom) (c : ascii) (s : string) :
  Re.rmatch (Re.One cl :: r) (String c s)
  = if cl c then Re.emit (String c "") (Re.rmatch r s) else None.
Proof. reflexivity. Qed.

Lemma rmatch_star_lazy cl (r : list Re.atom) (s : string) :
  Re.rmatch (Re.StarLazy cl :: r) s = Re.lazy cl (Re.rmatch r) s.
Proof. reflexivity. Qed.

Lemma lazy_cons cl k (c : ascii) (s : string) :
  Re.lazy cl k (String c s)
  = match Re.emit "" (k (String c s)) with
    | Some r => Some r
    | None => if cl c then Re.push c (Re.lazy cl k s) else None
    end.
Proof. reflexivity. Qed.

Lemma lazy_first_sep (body tl : string) :
  no_nl body -> line_end tl ->
  Re.lazy Str.is_dot
    (Re.rmatch [Re.Lit " - "; Re.Star Str.is_dot; Re.Eol]) (body +:+ tl)
  = match split_first_sep body with
    | Some (n, d) => Some [n; " - "; d; ""]
    | None => None
    end.
Proof.
  intros Hb Htl. induction body as [|c body IH].
  - destruct Htl as [-> | ->]; reflexivity.
  - pose proof Hb as Hcb. apply no_nl_cons in Hcb as [Hc Hbody].
    specialize (IH Hbody).
    cbn [split_first_sep].
    change (String c body +:+ tl) with (String c (body +:+ tl)).
    rewrite lazy_cons, rmatch_lit.
    change (String c (body +:+ tl)) with (String c body +:+ tl).
    destruct (Str.strip_prefix " - " (String c body)) as [d|] eqn:E.
    + assert (Hd : no_nl d).
      { apply strip_prefix_inv in E. rewrite E in Hb.
        now apply no_nl_app in Hb as [_ Hd]. }
      rewrite (strip_prefix_more _ _ _ tl E).
      now rewrite (rest_of_line d tl Hd Htl).
    + rewrite (sep_at_end _ tl Htl E). cbn [Re.emit].
      rewrite Hc, IH.
      destruct (split_first_sep body) as [[n d]|]; reflexivity.
Qed.

(** The first separator of [name - description], for a name of word
    characters. *)
Lemma split_first_sep_word (name d : string) :
  Str.all Str.is_word name = true ->
  split_first_sep (name +:+ " - " +:+ d) = Some (name, d).
Proof.
  induction name as [|c name IH]; [reflexivity |].
  cbn [Str.all]. intros [Hc Hn]%andb_true_iff.
  change (String c name +:+ " - " +:+ d) with (String c (name +:+ " - " +:+ d)).
  cbn [split_first_sep Str.strip_prefix].
  rewrite (word_not_blank c Hc). now rewrite (IH Hn).
Qed.

(** What [split_first_sep] returns: the separator follows the name, and
    does not occur earlier. *)
Lemma split_first_sep_spec (s n d : string) :
  split_first_sep s = Some (n, d) ->
  s = n +:+ " - " +:+ d /\
  forall a b, s = a +:+ " - " +:+ b -> String.length n <= String.length a.
Proof.
  revert n d. induction s as [|c s IH]; intros n d H.
  - simpl in H. discriminate.
  - cbn [split_first_sep] in H.
    destruct (Str.strip_prefix " - " (String c s)) as [r|] eqn:E.
    + injection H as <- <-. split; [now apply strip_prefix_inv in E |].
      intros; simpl; lia.
    + destruct (split_first_sep s) as [[n' d']|] eqn:Es; [|discriminate].
      injection H as <- <-.
      destruct (IH _ _ eq_refl) as [Hs Hmin]. split; [now rewrite Hs at 1 |].
      intros a b Hab. destruct a as [|x a].
      * change ("" +:+ " - " +:+ b) with (" - " +:+ b) in Hab.
        rewrite Hab, strip_prefix_app in E. discriminate.
      * injection Hab as _ Hab. specialize (Hmin _ _ Hab). simpl. lia.
Qed.

(** The summary pattern reads a line as the split at its first
    separator. *)
Lemma re_summary_first_sep (c : ascii) (body tl : string) :
  Str.is_word c = true -> no_nl body -> line_end tl ->
  re_summary_match (String c body +:+ tl) = split_first_sep (String c body).
Proof.
  intros Hc Hb Htl.
  unfold re_summary_match, re_summary.
  change (String c body +:+ tl) with (String c (body +:+ tl)).
  rewrite rmatch_one, Hc, rmatch_star_lazy, (lazy_first_sep body tl Hb Htl).
  cbn [split_first_sep Str.strip_prefix].
  rewrite (word_not_blank c Hc).
  destruct (split_first_sep body) as [[n d]|]; reflexivity.
Qed.

End ReFacts.
(** ** The manifest parser *)

Module ParseFacts.

Import StrFacts ReFacts.

Lemma readlines_nonempty (c : ascii) (s : string) :
  Str.readlines (String c s) <> [].
Proof.
  simpl. destruct (Ascii.eqb c Str.nl); [discriminate |].
  destruct (Str.readlines s); discriminate.
Qed.

(** A text that ends with a newline splits from what follows it. *)
Lemma readlines_after_nl (p s : string) :
  Str.readlines (p +:+ Str.NL +:+ s)
  = Str.readlines (p +:+ Str.NL) ++ Str.readlines s.
Proof.
  induction p as [|c p IH]; [reflexivity |].
  change (String c p +:+ Str.NL +:+ s) with (String c (p +:+ Str.NL +:+ s)).
  change (String c p +:+ Str.NL) with (String c (p +:+ Str.NL)).
  cbn [Str.readlines]. rewrite IH.
  destruct (Ascii.eqb c Str.nl); [reflexivity |].
  destruct (Str.readlines (p +:+ Str.NL)) as [|l ls] eqn:E; [|reflexivity].
  exfalso. destruct p as [|c' p].
  - exact (readlines_nonempty Str.nl "" E).
  - exact (readlines_nonempty c' (p +:+ Str.NL) E).
Qed.

Lemma readlines_app (p s : string) :
  complete p -> Str.readlines (p +:+ s) = Str.readlines p ++ Str.readlines s.
Proof.
  intros [-> | [q ->]]; [reflexivity |].
  rewrite sapp_assoc. apply readlines_after_nl.
Qed.

Lemma readlines_body (body : string) :
  no_nl body -> body <> "" -> Str.readlines body = [body].
Proof.
  induction body as [|c body IH]; [easy |].
  intros [Hc Hb]%no_nl_cons _. cbn [Str.readlines].
  unfold Str.is_dot in Hc. apply negb_true_iff in Hc. rewrite Hc.
  destruct body as [|c' body]; [reflexivity |].
  now rewrite IH.
Qed.

Lemma readlines_line (body : string) :
  no_nl body -> Str.readlines (body +:+ Str.NL) = [body +:+ Str.NL].
Proof.
  induction body as [|c body IH]; [reflexivity |].
  intros [Hc Hb]%no_nl_cons.
  change (String c body +:+ Str.NL) with (String c (body +:+ Str.NL)).
  cbn [Str.readlines].
  unfold Str.is_dot in Hc. apply negb_true_iff in Hc. rewrite Hc.
  now rewrite IH.
Qed.

(** The lines of a text that starts with the line [body +:+ tl]. *)
Lemma readlines_first (body tl rest : string) :
  no_nl body -> body <> "" ->
  tl = Str.NL \/ (tl = "" /\ rest = "") ->
  Str.readlines (body +:+ tl +:+ rest) = (body +:+ tl) :: Str.readlines rest.
Proof.
  intros Hb Hne [-> | [-> ->]].
  - now rewrite readlines_after_nl, readlines_line.
  - rewrite !sapp_nil_r. now apply readlines_body.
Qed.

Lemma parse_lines_header (pending : option string) (l1 l2 : list string)
    (h name : string) :
  re_header_match h = Some name ->
  parse_lines pending (l1 ++ h :: l2)
  = parse_lines pending l1 ++ parse_lines (Some name) l2.
Proof.
  intros Hh. revert pending.
  induction l1 as [|l l1 IH]; intros pending; simpl.
  - now rewrite Hh.
  - destruct (re_header_match l) as [n|].
    + now rewrite IH, List.app_assoc.
    + destruct (re_summary_match l) as [g|]; [|apply IH].
      destruct pending as [n|]; [|apply IH].
      now rewrite IH.
Qed.

Lemma parse_lines_summary (pending : option string) (line : string)
    (g : string * string) (rest : list string) :
  re_summary_match line = Some g ->
  parse_lines pending (line :: rest)
  = match pending with
    | Some name => Block2 name g :: parse_lines None rest
    | None => parse_lines None rest
    end.
Proof.
  intros Hs. simpl. now rewrite (summary_not_header _ _ Hs), Hs.
Qed.

End ParseFacts.

Import StrFacts ReFacts ParseFacts.

(** C9: a summary line splits at the first [" - "]: the name is the text
    before it, the description everything after it, which may hold the
    separator again.  A line that starts with a word character and holds
    no separator is no summary line. *)
Theorem re_summary_splits_at_first_separator (c : ascii) (body tl : string) :
  Str.is_word c = true -> no_nl body -> line_end tl ->
  re_summary_match (String c body +:+ tl) = split_first_sep (String c body)
  /\ forall n d, split_first_sep (String c body) = Some (n, d) ->
       String c body = n +:+ " - " +:+ d
       /\ forall a b, String c body = a +:+ " - " +:+ b ->
            String.length n <= String.length a.
Proof.
  intros Hc Hb Htl. split; [|apply split_first_sep_spec].
  now apply re_summary_first_sep.
Qed.

Lemma re_summary_splits_at_first_separator_witness :
  re_summary_match "A - B - C" = Some ("A", "B - C")
  /\ re_summary_match ("A - B - C" +:+ Str.NL) = Some ("A", "B - C").
Proof.
  split.
  - rewrite <- (sapp_nil_r "A - B - C").
    refine (proj1 (re_summary_splits_at_first_separator "A" " - B - C" "" _ _ _));
      [reflexivity | reflexivity | now right].
  - refine (proj1 (re_summary_splits_at_first_separator "A" " - B - C" Str.NL _ _ _));
      [reflexivity | reflexivity | now left].
Defined.

(** C8: a summary line read while no header is pending is ignored: the
    loop goes on as if the line were not there, and a manifest whose first
    line is a summary line parses as the rest of the manifest.  The
    parser is a total function, so nothing is raised. *)
Theorem summary_without_header_ignored (body tl rest : string)
    (g : string * string) :
  no_nl body ->
  tl = Str.NL \/ (tl = "" /\ rest = "") ->
  re_summary_match (body +:+ tl) = Some g ->
  (forall lines, parse_lines None ((body +:+ tl) :: lines) = parse_lines None lines)
  /\ parse_footer (body +:+ tl +:+ rest) = parse_footer rest.
Proof.
  intros Hb Htl Hs.
  assert (Hlines : forall lines,
             parse_lines None ((body +:+ tl) :: lines) = parse_lines None lines).
  { intros lines. now rewrite (parse_lines_summary None _ g). }
  split; [exact Hlines |].
  unfold parse_footer.
  assert (Hne : body <> "").
  { intros ->. apply re_summary_first in Hs as (c & s & E & Hc).
    destruct Htl as [-> | [-> _]]; [|discriminate].
    injection E as <- _. vm_compute in Hc. discriminate. }
  now rewrite (readlines_first body tl rest Hb Hne Htl), Hlines.
Qed.

Lemma summary_without_header_ignored_witness :
  parse_footer ("addCols - Sum columns" +:+ Str.NL +:+ "=== a ===" +:+ Str.NL)
  = parse_footer ("=== a ===" +:+ Str.NL).
Proof.
  refine (proj2 (summary_without_header_ignored "addCols - Sum columns" Str.NL
                   ("=== a ===" +:+ Str.NL) ("addCols", "Sum columns") _ _ _));
    [reflexivity | now left | reflexivity].
Defined.

(** C2: a header line immediately followed by a summary line yields
    exactly one block for the pair, between the blocks of the text before
    it and those of the text after it: the two-part block of the header
    name, the summary name and the description.  The summary name is the
    text of the line before its first separator, whatever follows the
    program name in it, and the description is the rest of the line as it
    is written. *)
Theorem header_then_summary_block
    (pre hbody name sbody summary_name desc tl post : string) :
  complete pre ->
  no_nl hbody ->
  re_header_match (hbody +:+ Str.NL) = Some name ->
  no_nl sbody ->
  tl = Str.NL \/ (tl = "" /\ post = "") ->
  re_summary_match (sbody +:+ tl) = Some (summary_name, desc) ->
  parse_footer (pre +:+ (hbody +:+ Str.NL) +:+ sbody +:+ tl +:+ post)
  = parse_footer pre ++ [Block2 name (summary_name, desc)] ++ parse_footer post
  /\ sbody = summary_name +:+ " - " +:+ desc.
Proof.
  intros Hpre Hh Hm Hb Htl Hs.
  assert (Hend : line_end tl) by (destruct Htl as [-> | [-> _]]; [now left | now right]).
  destruct (re_summary_first _ _ Hs) as (c & s & Hcs & Hc).
  destruct sbody as [|c' body].
  { exfalso. destruct Hend as [-> | ->]; [|discriminate].
    injection Hcs as <- _. vm_compute in Hc. discriminate. }
  injection Hcs as -> _.
  split.
  - unfold parse_footer.
    rewrite (readlines_app pre _ Hpre).
    rewrite sapp_assoc, readlines_after_nl, (readlines_line _ Hh).
    rewrite readlines_first; [| exact Hb | easy | exact Htl].
    cbn [app].
    rewrite (parse_lines_header None _ _ _ _ Hm).
    now rewrite (parse_lines_summary (Some name) _ _ _ Hs).
  - apply no_nl_cons in Hb as [_ Hb].
    rewrite (re_summary_first_sep c body tl Hc Hb Hend) in Hs.
    now apply split_first_sep_spec in Hs as [Hs _].
Qed.

Lemma header_then_summary_block_witness :
  parse_footer (("=== a ===" +:+ Str.NL)
                +:+ ("========   bedGraphToBigWig   ======" +:+ Str.NL)
                +:+ "bedGraphToBigWig v 4 - Convert 'bedGraph' {to} a - file; 100% <ok>."
                +:+ Str.NL +:+ "=== b ===")
  = parse_footer ("=== a ===" +:+ Str.NL)
    ++ [Block2 "bedGraphToBigWig"
          ("bedGraphToBigWig v 4",
           "Convert 'bedGraph' {to} a - file; 100% <ok>.")]
    ++ parse_footer "=== b ==="
  /\ "bedGraphToBigWig v 4 - Convert 'bedGraph' {to} a - file; 100% <ok>."
     = "bedGraphToBigWig v 4" +:+ " - "
       +:+ "Convert 'bedGraph' {to} a - file; 100% <ok>.".
Proof.
  apply (header_then_summary_block ("=== a ===" +:+ Str.NL)
           "========   bedGraphToBigWig   ======" "bedGraphToBigWig"
           "bedGraphToBigWig v 4 - Convert 'bedGraph' {to} a - file; 100% <ok>."
           "bedGraphToBigWig v 4"
           "Convert 'bedGraph' {to} a - file; 100% <ok>." Str.NL "=== b ===").
  - right. now exists "=== a ===".
  - reflexivity.
  - reflexivity.
  - reflexivity.
  - now left.
  - reflexivity.
Defined.
(** ** The source-directory locator *)

Module LocatorFacts.

Import StrFacts.

Lemma getmember_listed (t : TarFile) (n : string) :
  n ∈ getnames t -> exists m, getmember t n = inr m.
Proof.
  intros Hn. unfold getmember.
  destruct (find _ (rev t)) as [m|] eqn:E; [eauto |].
  exfalso. apply list_elem_of_In, in_map_iff in Hn as (m & Hm & Hin).
  apply in_rev in Hin. apply (find_none _ _ E) in Hin.
  rewrite Hm, String.eqb_refl in Hin. discriminate.
Qed.

(** The comprehension keeps the hits of the listing, in its order. *)
Lemma hits_of_listed (t : TarFile) (program : string) (names : list string) :
  (forall n, n ∈ names -> n ∈ getnames t) ->
  exists hits,
    hits_of t program names = inr hits
    /\ forall i, i ∈ hits <-> i ∈ names /\ is_hit t program i.
Proof.
  induction names as [|i names IH]; intros Hl.
  - exists []. split; [reflexivity |]. intros i. rewrite !elem_of_nil. tauto.
  - destruct IH as (hits & Hh & Hiff).
    { intros n Hn. apply Hl. now right. }
    destruct (getmember_listed t i) as [m Hm]; [apply Hl; now left |].
    cbn [hits_of]. rewrite Hh, Hm.
    destruct (Str.contains program i) eqn:Hc.
    + destruct (isdir m) eqn:Hd.
      * exists (i :: hits). split; [reflexivity |]. intros j.
        rewrite !elem_of_cons, Hiff. split; [|tauto].
        intros [-> | H]; [|tauto]. split; [now left |].
        split; [now apply contains_iff | eauto].
      * exists hits. split; [reflexivity |]. intros j.
        rewrite elem_of_cons, Hiff. split; [tauto |].
        intros [[-> | H] Hhit]; [|tauto].
        destruct Hhit as (_ & m' & Hm' & Hd'). congruence.
    + exists hits. split; [reflexivity |]. intros j.
      rewrite elem_of_cons, Hiff. split; [tauto |].
      intros [[-> | H] Hhit]; [|tauto].
      destruct Hhit as (Hsub & _). apply contains_iff in Hsub. congruence.
Qed.

End LocatorFacts.

Import LocatorFacts.

(** C1, as amended: among the entries of the listing that hold the
    program name and are directories of the archive, the locator takes
    the least in byte order and returns it with the text [./userApps/]
    removed; [None] when there is no such entry. *)
Theorem program_subdir_least_hit (t : TarFile) (program : string)
    (names : list string) :
  (forall n, n ∈ names -> n ∈ getnames t) ->
  ((forall i, i ∈ names -> ~ is_hit t program i) ->
   program_subdir t program names = inr None)
  /\ ((exists i, i ∈ names /\ is_hit t program i) ->
      exists top,
        top ∈ names /\ is_hit t program top
        /\ (forall i, i ∈ names -> is_hit t program i -> Str.le top i)
        /\ program_subdir t program names
           = inr (Some (Str.replace "./userApps/" "" top))).
Proof.
  intros Hl. destruct (hits_of_listed t program names Hl) as (hits & Hh & Hiff).
  unfold program_subdir. rewrite Hh.
  pose proof (sorted_least hits) as Hleast.
  destruct (Str.sorted hits) as [|top rest] eqn:Es.
  - apply sorted_nil in Es as ->. split; [reflexivity |].
    intros (i & Hi & Hhit). exfalso.
    apply (elem_of_nil i), Hiff. now split.
  - assert (Htop : top ∈ hits) by (apply sorted_elem; rewrite Es; now left).
    split.
    + intros Hnone. exfalso. apply Hiff in Htop as [Hin Hhit].
      exact (Hnone _ Hin Hhit).
    + intros _. exists top. apply Hiff in Htop as [Hin Hhit].
      repeat split; try assumption.
      * apply Hhit.
      * apply Hhit.
      * intros i Hi Hhi. apply Hleast.
        rewrite <- Es. apply sorted_elem, Hiff. now split.
Qed.

Lemma program_subdir_least_hit_witness :
  exists top,
    top ∈ ["./userApps/kent/src/toolA/"; "./userApps/kent/src/toolAB/"]
    /\ is_hit listing_AB "toolA" top
    /\ (forall i,
          i ∈ ["./userApps/kent/src/toolA/"; "./userApps/kent/src/toolAB/"] ->
          is_hit listing_AB "toolA" i -> Str.le top i)
    /\ program_subdir listing_AB "toolA"
         ["./userApps/kent/src/toolA/"; "./userApps/kent/src/toolAB/"]
       = inr (Some (Str.replace "./userApps/" "" top)).
Proof.
  refine (proj2 (program_subdir_least_hit listing_AB "toolA"
                   ["./userApps/kent/src/toolA/"; "./userApps/kent/src/toolAB/"]
                   (fun n Hn => Hn)) _).
  exists "./userApps/kent/src/toolA/". split; [now left |].
  split.
  - exists "./userApps/kent/src/", "/". reflexivity.
  - eexists. split; reflexivity.
Defined.

(** At the listing of the two tools the locator returns the path of
    [toolA] below [./userApps/], which is not the entry of the listing. *)
Lemma program_subdir_returns_entry_counterexample :
  program_subdir listing_AB "toolA"
    ["./userApps/kent/src/toolA/"; "./userApps/kent/src/toolAB/"]
  = inr (Some "kent/src/toolA/")
  /\ program_subdir listing_AB "toolA"
       ["./userApps/kent/src/toolA/"; "./userApps/kent/src/toolAB/"]
     <> inr (Some "./userApps/kent/src/toolA/").
Proof. split; [reflexivity | vm_compute; discriminate]. Qed.
(** ** The loop *)

Module LoopFacts.

Lemma for_blocks_cons (e : env) (tp : templates) (b : block)
    (rest : list block) (st : state) :
  for_blocks e tp (b :: rest) st
  = match loop_body e tp b st with
    | (inl x, st') => (inl x, st')
    | (inr _, st') => for_blocks e tp rest st'
    end.
Proof. reflexivity. Qed.

Lemma loop_body_resolve (e : env) (tp : templates) (b : block) (st : state) :
  loop_body e tp b st
  = match resolve_block b with
    | inl x => (inl x, st)
    | inr None => (inr tt, st)
    | inr (Some (program, description)) =>
        write_recipe e tp program description st
    end.
Proof.
  unfold loop_body, bind, lift.
  destruct (resolve_block b) as [x | [[program description]|]]; reflexivity.
Qed.

(** A block whose resolution raises stops the run where it stands. *)
Lemma for_blocks_raise (e : env) (tp : templates) (b : block)
    (rest : list block) (st : state) (x : exn) :
  resolve_block b = inl x -> for_blocks e tp (b :: rest) st = (inl x, st).
Proof. intros H. now rewrite for_blocks_cons, loop_body_resolve, H. Qed.


Lemma for_blocks_app (e : env) (tp : templates) (l1 l2 : list block)
    (st : state) :
  for_blocks e tp (l1 ++ l2) st
  = match for_blocks e tp l1 st with
    | (inl x, st') => (inl x, st')
    | (inr _, st') => for_blocks e tp l2 st'
    end.
Proof.
  revert st. induction l1 as [|b l1 IH]; intros st; [reflexivity |].
  cbn [app]. rewrite !for_blocks_cons.
  destruct (loop_body e tp b st) as [[x|[]] st']; [reflexivity | apply IH].
Qed.


(** The locator raises nothing on the listing of the archive. *)
Lemma program_subdir_total (t : TarFile) (program : string) :
  exists r, program_subdir t program (names_of t) = inr r.
Proof.
  destruct (LocatorFacts.hits_of_listed t program (names_of t))
    as (hits & Hh & _).
  { intros n Hn. unfold names_of in Hn.
    now apply list_elem_of_filter in Hn as [_ Hn]. }
  unfold program_subdir. rewrite Hh.
  destruct (Str.sorted hits); eauto.
Qed.

End LoopFacts.

Import LoopFacts.

(** C3: a two-part block whose header name, after the exception mapping,
    differs from the first token of the summary name and has no entry in
    the conflict table stops the run at once: [ValueError] is raised with
    a message that quotes both names, the state is as it was, and no
    later block is processed. *)
Theorem mismatch_is_fatal (e : env) (tp : templates)
    (header summary_name description token : string) (more : list string)
    (rest : list block) (st : state) :
  Str.split summary_name = token :: more ->
  default header (problematic !! header) <> token ->
  resolve_header_and_summary_conflicts
    !! default header (problematic !! header) = None ->
  for_blocks e tp (Block2 header (summary_name, description) :: rest) st
  = (inl (ValueError
            ("mismatch in header and summary. header: '"
             +:+ default header (problematic !! header)
             +:+ "'; summary: '" +:+ token +:+ "'")), st).
Proof.
  intros Hsplit Hne Hnone. apply for_blocks_raise.
  cbn [resolve_block]. rewrite Hsplit.
  apply String.eqb_neq in Hne. now rewrite Hne, Hnone.
Qed.

Lemma mismatch_is_fatal_witness :
  for_blocks (sample_env "") sample_templates
    [Block2 "addCols" ("addcols v 2", "Sum columns"); Block1 "pslSwap"]
    sample_state
  = (inl (ValueError
            "mismatch in header and summary. header: 'addCols'; summary: 'addcols'"),
     sample_state).
Proof.
  apply (mismatch_is_fatal (sample_env "") sample_templates
           "addCols" "addcols v 2" "Sum columns" "addcols" ["v"; "2"]).
  - reflexivity.
  - discriminate.
  - reflexivity.
Defined.

(** C4, as amended: a header-only block for a program that is neither on
    the skip list nor in the manual-description table stops the run with
    [KeyError] for that name when the loop reaches it; the block writes
    nothing, so the run ends in the state that the blocks before it
    left. *)
Theorem missing_description_is_fatal (e : env) (tp : templates)
    (before : list block) (program : string) (rest : list block)
    (st : state) :
  program ∉ SKIP ->
  manual_descriptions !! program = None ->
  fst (for_blocks e tp before st) = inr tt ->
  for_blocks e tp (before ++ Block1 program :: rest) st
  = (inl (KeyError program), snd (for_blocks e tp before st)).
Proof.
  intros Hskip Hnone Hbefore. rewrite for_blocks_app.
  destruct (for_blocks e tp before st) as [[x|[]] st']; [discriminate |].
  apply for_blocks_raise.
  cbn [resolve_block]. now rewrite (bool_decide_eq_false_2 _ Hskip), Hnone.
Qed.

Lemma missing_description_is_fatal_witness :
  for_blocks (sample_env "") sample_templates
    ([Block1 "sizeof"] ++ Block1 "zzz" :: [Block1 "pslSwap"]) sample_state
  = (inl (KeyError "zzz"),
     snd (for_blocks (sample_env "") sample_templates [Block1 "sizeof"]
            sample_state)).
Proof.
  apply (missing_description_is_fatal (sample_env "") sample_templates
           [Block1 "sizeof"] "zzz").
  - unfold SKIP. rewrite list_elem_of_singleton. discriminate.
  - reflexivity.
  - reflexivity.
Defined.

(** A manifest with a complete block before a header-only block of an
    undescribed program: the run stops with the lookup error after the
    files of the first block were written. *)
Lemma missing_description_before_any_write_counterexample :
  let manifest :=
    "======== addCols ========" +:+ Str.NL
    +:+ "addCols - Sum columns in a text file." +:+ Str.NL
    +:+ "======== zzz ========" +:+ Str.NL in
  let out := main (sample_env manifest) sample_state in
  parse_footer manifest
  = [Block2 "addCols" ("addCols", "Sum columns in a text file."); Block1 "zzz"]
  /\ fst out = inl (KeyError "zzz")
  /\ files sample_state !! "scripts/ucsc/../../recipes/ucsc-addcols/meta.yaml"
     = None
  /\ files (snd out) !! "scripts/ucsc/../../recipes/ucsc-addcols/meta.yaml"
     = Some "name: ucsc-addcols # addCols 324: Sum columns in a text file.".
Proof. vm_compute. auto. Qed.

(** C5: a resolved program for which the locator finds no directory and
    which has no custom build script is skipped: the line
    [Skipping <program>] is printed, neither directory nor file is
    touched, and the loop goes on with the next block. *)
Theorem unlocated_program_skipped (e : env) (tp : templates) (b : block)
    (program description : string) (rest : list block) (st : state) :
  resolve_block b = inr (Some (program, description)) ->
  program_subdir (t e) program (names_of (t e)) = inr None ->
  custom_build_scripts !! program = None ->
  for_blocks e tp (b :: rest) st
  = for_blocks e tp rest
      {| dirs := dirs st; files := files st;
         console := console st ++ ["Skipping " +:+ program] |}.
Proof.
  intros Hres Hsub Hcustom.
  rewrite for_blocks_cons, loop_body_resolve, Hres.
  unfold write_recipe, bind, lift. rewrite Hsub, Hcustom. reflexivity.
Qed.

Lemma unlocated_program_skipped_witness :
  for_blocks (sample_env "") sample_templates
    [Block1 "pslSwap"; Block1 "zzz"] sample_state
  = for_blocks (sample_env "") sample_templates [Block1 "zzz"]
      {| dirs := dirs sample_state; files := files sample_state;
         console := console sample_state ++ ["Skipping pslSwap"] |}.
Proof.
  apply (unlocated_program_skipped (sample_env "") sample_templates
           (Block1 "pslSwap") "pslSwap"
           (Str.NL +:+ "Swap target and query in psls" +:+ Str.NL));
    reflexivity.
Defined.



(** ** Paths *)

Module PathFacts.

Import StrFacts.

Lemma has_slash_app_r (a b : string) : has_slash b -> has_slash (a +:+ b).
Proof. unfold has_slash. rewrite any_app. intros ->. apply orb_true_r. Qed.

Lemma has_slash_app_l (a b : string) : has_slash a -> has_slash (a +:+ b).
Proof. unfold has_slash. rewrite any_app. now intros ->. Qed.

Lemma any_cons p (c : ascii) (s : string) :
  Str.any p (String c s) = p c || Str.any p s.
Proof. reflexivity. Qed.

Lemma endswith_slash (a : string) :
  Str.endswith a "/" = true -> has_slash a.
Proof.
  unfold has_slash. induction a as [|c a IH]; [discriminate |].
  destruct a as [|c' a].
  - cbn [Str.endswith Str.any]. intros H%String.eqb_eq. injection H as ->.
    reflexivity.
  - intros H. rewrite any_cons, (IH H). apply orb_true_r.
Qed.

(** The join of a directory and a relative name is the name below the
    directory. *)
Lemma join_relative (a b : string) :
  Str.startswith b "/" = false ->
  Path.join a b = b /\ a = ""
  \/ Path.join a b = a +:+ b /\ Str.endswith a "/" = true
  \/ Path.join a b = a +:+ "/" +:+ b /\ a <> "" /\ Str.endswith a "/" = false.
Proof.
  intros Hb. unfold Path.join. rewrite Hb.
  destruct a as [|c a]; [now left |].
  destruct (Str.endswith (String c a) "/") eqn:E; right; [left | right]; easy.
Qed.

Lemma join_nonempty (a b : string) : b <> "" -> Path.join a b <> "".
Proof.
  intros Hb. unfold Path.join.
  destruct (Str.startswith b "/"); [exact Hb |].
  destruct a as [|c a]; [exact Hb |].
  destruct (Str.endswith (String c a) "/"); discriminate.
Qed.

(** A file of a named directory has a slash in its path. *)
Lemma join_has_slash (d f : string) :
  d <> "" -> Str.startswith f "/" = false -> has_slash (Path.join d f).
Proof.
  intros Hd Hf.
  destruct (join_relative d f Hf) as [[_ ->] | [[-> He] | [-> _]]]; [easy | |].
  - now apply has_slash_app_l, endswith_slash.
  - now apply has_slash_app_r, has_slash_app_l.
Qed.

Lemma recipe_dir_nonempty (e : env) (program : string) :
  Path.join (recipes_dir e) (package_of program) <> "".
Proof. now apply join_nonempty. Qed.

Lemma recipe_file_has_slash (e : env) (program f : string) :
  Str.startswith f "/" = false ->
  has_slash (Path.join (Path.join (recipes_dir e) (package_of program)) f).
Proof. apply join_has_slash, recipe_dir_nonempty. Qed.

Lemma build_template_no_slash (program : string) :
  ~ has_slash (default "template-build.sh" (custom_build_scripts !! program)).
Proof.
  unfold custom_build_scripts.
  destruct (decide (program = "fetchChromSizes")) as [->|Hne].
  - rewrite lookup_singleton_eq. vm_compute. discriminate.
  - rewrite lookup_singleton_ne by congruence. vm_compute. discriminate.
Qed.

End PathFacts.
(** ** A run and its repetition *)

Module RunFacts.

Import PathFacts.

Lemma Future_refl (s : state) : Future s s.
Proof. split; auto. Qed.

Lemma Future_trans (a b c : state) : Future a b -> Future b c -> Future a c.
Proof.
  intros [D1 F1 N1 R1] [D2 F2 N2 R2]. split.
  - set_solver.
  - auto.
  - auto.
  - intros p Hp. now rewrite R2, R1.
Qed.

(** *** Every statement moves to a future *)

Lemma fut_ret {A} (a : A) : fut (ret a).
Proof. intros s. apply Future_refl. Qed.

Lemma fut_lift {A} (r : result A) : fut (lift r).
Proof. intros s. apply Future_refl. Qed.

Lemma fut_bind {A B} (m : M A) (k : A -> M B) :
  fut m -> (forall a, fut (k a)) -> fut (bind m k).
Proof.
  intros Hm Hk s. unfold bind. specialize (Hm s).
  destruct (m s) as [[x|a] sm]; [exact Hm |].
  apply Future_trans with sm; [exact Hm | apply Hk].
Qed.

Lemma fut_print (line : string) : fut (Os.print line).
Proof. intros s. split; simpl; auto. Qed.

Lemma fut_read (p : string) : fut (Os.read p).
Proof.
  intros s. unfold Os.read. destruct (files s !! p); apply Future_refl.
Qed.

Lemma fut_exists (p : string) : fut (Os.exists_ p).
Proof. intros s. apply Future_refl. Qed.

Lemma fut_makedirs (p : string) : fut (Os.makedirs p).
Proof.
  intros s. unfold Os.makedirs.
  destruct (_ || _) eqn:E; [apply Future_refl |].
  apply orb_false_iff in E as [_ Hf%bool_decide_eq_false].
  split; simpl; auto.
  - set_solver.
  - intros q Hq Hd. apply not_elem_of_union. split; [|exact Hd].
    apply not_elem_of_singleton. now intros ->.
Qed.

Lemma fut_set_files (p c : string) (s : state) :
  has_slash p -> Future s (set_files (<[ p := c ]> (files s)) s).
Proof.
  intros Hp. split; simpl; auto.
  - intros q Hq. destruct (decide (p = q)) as [->|Hne].
    + rewrite lookup_insert_eq. eauto.
    + now rewrite lookup_insert_ne.
  - intros q Hq. rewrite lookup_insert_ne; [reflexivity |]. now intros ->.
Qed.

Lemma fut_open_w (p : string) : has_slash p -> fut (Os.open_w p).
Proof.
  intros Hp s. unfold Os.open_w.
  destruct (_ && _); [now apply fut_set_files | apply Future_refl].
Qed.

Lemma fut_write (p c : string) : has_slash p -> fut (Os.write p c).
Proof. intros Hp s. now apply fut_set_files. Qed.

Lemma fut_with_open_w (p : string) (content : M string) :
  has_slash p -> fut content -> fut (Os.with_open_w p content).
Proof.
  intros Hp Hc. unfold Os.with_open_w.
  apply fut_bind; [now apply fut_open_w |]. intros _.
  apply fut_bind; [exact Hc |]. intros c. now apply fut_write.
Qed.

Lemma fut_ensure_dir (d : string) :
  fut (bind (Os.exists_ d)
         (fun ex => if negb ex then Os.makedirs d else ret tt)).
Proof.
  apply fut_bind; [apply fut_exists |].
  intros [|]; [apply fut_ret | apply fut_makedirs].
Qed.

Lemma fut_build_content (e : env) (program : string) :
  fut (bind (Os.read (default "template-build.sh"
                        (custom_build_scripts !! program)))
         (fun _template =>
            bind (lift (program_subdir (t e) program (names_of (t e))))
              (fun source_dir =>
                 lift (pyformat _template
                         (<[ "program" := PStr program ]>
                          (<[ "program_source_dir" :=
                                match source_dir with
                                | Some d => PStr d
                                | None => PNone
                                end ]> ∅)))))).
Proof.
  apply fut_bind; [apply fut_read |]. intros tpl.
  apply fut_bind; [apply fut_lift |]. intros sd. apply fut_lift.
Qed.

Lemma fut_write_recipe (e : env) (tp : templates) (program description : string) :
  fut (write_recipe e tp program description).
Proof.
  unfold write_recipe.
  apply fut_bind; [apply fut_lift |]. intros subdir.
  destruct (_ && _); [apply fut_print |].
  apply fut_bind; [apply fut_ensure_dir |]. intros _.
  apply fut_bind.
  { apply fut_with_open_w; [now apply recipe_file_has_slash | apply fut_lift]. }
  intros _. apply fut_bind.
  { apply fut_with_open_w;
      [now apply recipe_file_has_slash | apply fut_build_content]. }
  intros _. apply fut_bind.
  { apply fut_with_open_w; [now apply recipe_file_has_slash | apply fut_lift]. }
  intros _.
  apply fut_with_open_w; [now apply recipe_file_has_slash | apply fut_read].
Qed.

Lemma fut_loop_body (e : env) (tp : templates) (b : block) :
  fut (loop_body e tp b).
Proof.
  unfold loop_body. apply fut_bind; [apply fut_lift |].
  intros [[program description]|]; [apply fut_write_recipe | apply fut_ret].
Qed.

Lemma fut_for_blocks (e : env) (tp : templates) (blocks : list block) :
  fut (for_blocks e tp blocks).
Proof.
  induction blocks as [|b rest IH]; [apply fut_ret |].
  cbn [for_blocks]. apply fut_bind; [apply fut_loop_body | now intros _].
Qed.

(** *** Every statement runs again as it ran *)

Lemma sim_const {A} (r : result A) : sim (fun s => (r, s)).
Proof. intros s s1 s' _ _ HC. simpl. auto. Qed.

Lemma sim_ret {A} (a : A) : sim (ret a).
Proof. apply sim_const. Qed.

Lemma sim_lift {A} (r : result A) : sim (lift r).
Proof. apply sim_const. Qed.

Lemma sim_bind {A B} (m : M A) (k : A -> M B) :
  sim m -> (forall a, fut (k a)) -> (forall a, sim (k a)) -> sim (bind m k).
Proof.
  intros Hm Hfut Hk s s1 s'. specialize (Hm s s1 s'). unfold bind.
  destruct (m s) as [[x|a] sm] eqn:Em; cbn [fst snd] in *.
  - intros HF Herr HC.
    destruct Hm as [Hr HC'];
      [exact HF | intros x0 [= <-]; now apply (Herr x) | exact HC |].
    destruct (m s') as [r' sm']; cbn [fst snd] in *. subst r'. auto.
  - intros HF Herr HC.
    destruct Hm as [Hr HC']; [| discriminate | exact HC |].
    { apply Future_trans with (snd (k a sm)); [apply Hfut | exact HF]. }
    destruct (m s') as [r' sm']; cbn [fst snd] in *. subst r'.
    now apply Hk.
Qed.

Lemma sim_print (line : string) : sim (Os.print line).
Proof.
  intros s s1 s' _ _ [HD HM HF]. simpl. split; [reflexivity |].
  split; simpl; auto.
Qed.

(** The second run reads the files of the working directory as the
    first did. *)
Lemma cover_frame (s s1 s' : state) (p : string) :
  Future s s1 -> Cover s s1 s' -> ~ has_slash p ->
  files s' !! p = files s !! p.
Proof.
  intros HF HC Hp. destruct (cov_files _ _ _ HC p) as [H | H]; [exact H |].
  now rewrite H, (fut_frame _ _ HF).
Qed.

Lemma sim_read (p : string) : ~ has_slash p -> sim (Os.read p).
Proof.
  intros Hp s s1 s'. unfold Os.read.
  destruct (files s !! p) as [c|] eqn:E; cbn [fst snd]; intros HF _ HC;
    rewrite (cover_frame s s1 s' p HF HC Hp), E; auto.
Qed.

(** Writing the same content in both runs keeps the second run behind
    the first. *)
Lemma cover_set_files (s s1 s' : state) (p c : string) :
  Future (set_files (<[ p := c ]> (files s)) s) s1 ->
  Cover s s1 s' ->
  Cover (set_files (<[ p := c ]> (files s)) s) s1
        (set_files (<[ p := c ]> (files s')) s').
Proof.
  intros HF [HD HM HC]. split; simpl.
  - exact HD.
  - intros q. destruct (decide (p = q)) as [->|Hne].
    + rewrite lookup_insert_eq. split; [|eauto]. intros _.
      apply (fut_files _ _ HF). simpl. rewrite lookup_insert_eq. eauto.
    + rewrite lookup_insert_ne by exact Hne. apply HM.
  - intros q. destruct (decide (p = q)) as [->|Hne].
    + rewrite !lookup_insert_eq. now left.
    + rewrite !lookup_insert_ne by exact Hne. apply HC.
Qed.

Lemma sim_write (p c : string) : sim (Os.write p c).
Proof.
  intros s s1 s' HF _ HC. unfold Os.write in *. cbn [fst snd] in *.
  split; [reflexivity | now apply cover_set_files].
Qed.

Lemma sim_open_w (p : string) : sim (Os.open_w p).
Proof.
  intros s s1 s'. unfold Os.open_w, Os.parent_ok.
  destruct (negb (bool_decide (p ∈ dirs s))
            && (Str.all Str.is_slash (Path.dirname p)
                || bool_decide (Path.dirname p ∈ dirs s))) eqn:E;
    cbn [fst snd]; intros HF Herr HC.
  - apply andb_true_iff in E as [Hnd Hpar].
    apply negb_true_iff, bool_decide_eq_false in Hnd.
    assert (Hnd' : p ∉ dirs s').
    { rewrite (cov_dirs _ _ _ HC). apply (fut_not_dir _ _ HF); [|exact Hnd].
      simpl. rewrite lookup_insert_eq. eauto. }
    assert (Hpar' : Str.all Str.is_slash (Path.dirname p)
                    || bool_decide (Path.dirname p ∈ dirs s') = true).
    { apply orb_true_iff in Hpar as [-> | Hin%bool_decide_eq_true];
        [reflexivity |].
      apply orb_true_iff. right. apply bool_decide_eq_true.
      rewrite (cov_dirs _ _ _ HC). now apply (fut_dirs _ _ HF). }
    rewrite (bool_decide_eq_false_2 _ Hnd'), Hpar'. cbn [negb andb fst snd].
    split; [reflexivity | now apply cover_set_files].
  - pose proof (Herr _ eq_refl) as ->.
    rewrite (cov_dirs _ _ _ HC), E. cbn [fst snd]. auto.
Qed.

Lemma sim_with_open_w (p : string) (content : M string) :
  has_slash p -> fut content -> sim content ->
  sim (Os.with_open_w p content).
Proof.
  intros Hp Hf Hc. unfold Os.with_open_w.
  apply sim_bind; [apply sim_open_w | |].
  - intros _. apply fut_bind; [exact Hf |]. intros c. now apply fut_write.
  - intros _. apply sim_bind; [exact Hc | |].
    + intros c. now apply fut_write.
    + intros c. apply sim_write.
Qed.

(** The guarded creation of the directory: where the first run creates
    it, the second finds it. *)
Lemma sim_ensure_dir (d : string) :
  sim (bind (Os.exists_ d)
         (fun ex => if negb ex then Os.makedirs d else ret tt)).
Proof.
  intros s s1 s'. unfold bind, Os.exists_, Os.makedirs, ret.
  destruct (bool_decide (d ∈ dirs s) || bool_decide (is_Some (files s !! d)))
    eqn:E; cbn [negb fst snd].
  - intros HF _ HC.
    assert (E' : bool_decide (d ∈ dirs s')
                 || bool_decide (is_Some (files s' !! d)) = true).
    { apply orb_true_iff.
      apply orb_true_iff in E as [Hin%bool_decide_eq_true | Hf%bool_decide_eq_true].
      - left. apply bool_decide_eq_true.
        rewrite (cov_dirs _ _ _ HC). now apply (fut_dirs _ _ HF).
      - right. apply bool_decide_eq_true.
        apply (cov_dom _ _ _ HC), (fut_files _ _ HF), Hf. }
    rewrite E'. cbn [negb fst snd]. auto.
  - rewrite E. cbn [fst snd]. intros HF _ HC.
    assert (E' : bool_decide (d ∈ dirs s')
                 || bool_decide (is_Some (files s' !! d)) = true).
    { apply orb_true_iff. left. apply bool_decide_eq_true.
      rewrite (cov_dirs _ _ _ HC). apply (fut_dirs _ _ HF). simpl.
      apply elem_of_union. left. now apply elem_of_singleton. }
    rewrite E'. cbn [negb fst snd]. split; [reflexivity |].
    destruct HC as [HD HM HCf]. split; simpl; auto.
Qed.

(** *** Repeatable statements *)

Lemma repeatable_bind {A B} (m : M A) (k : A -> M B) :
  repeatable m -> (forall a, repeatable (k a)) -> repeatable (bind m k).
Proof.
  intros [Hf Hs] Hk. split.
  - apply fut_bind; [exact Hf | intros a; apply Hk].
  - apply sim_bind; [exact Hs | intros a; apply Hk | intros a; apply Hk].
Qed.

Lemma repeatable_ret {A} (a : A) : repeatable (ret a).
Proof. split; [apply fut_ret | apply sim_ret]. Qed.

Lemma repeatable_lift {A} (r : result A) : repeatable (lift r).
Proof. split; [apply fut_lift | apply sim_lift]. Qed.

Lemma repeatable_print (line : string) : repeatable (Os.print line).
Proof. split; [apply fut_print | apply sim_print]. Qed.

Lemma repeatable_read (p : string) : ~ has_slash p -> repeatable (Os.read p).
Proof. split; [apply fut_read | now apply sim_read]. Qed.

Lemma repeatable_ensure_dir (d : string) :
  repeatable (bind (Os.exists_ d)
                (fun ex => if negb ex then Os.makedirs d else ret tt)).
Proof. split; [apply fut_ensure_dir | apply sim_ensure_dir]. Qed.

Lemma repeatable_with_open_w (p : string) (content : M string) :
  has_slash p -> repeatable content -> repeatable (Os.with_open_w p content).
Proof.
  intros Hp [Hf Hs].
  split; [now apply fut_with_open_w | now apply sim_with_open_w].
Qed.

Lemma repeatable_write_recipe (e : env) (tp : templates)
    (program description : string) :
  repeatable (write_recipe e tp program description).
Proof.
  unfold write_recipe.
  apply repeatable_bind; [apply repeatable_lift |]. intros subdir.
  destruct (_ && _); [apply repeatable_print |].
  apply repeatable_bind; [apply repeatable_ensure_dir |]. intros _.
  apply repeatable_bind.
  { apply repeatable_with_open_w;
      [now apply recipe_file_has_slash | apply repeatable_lift]. }
  intros _. apply repeatable_bind.
  { apply repeatable_with_open_w; [now apply recipe_file_has_slash |].
    apply repeatable_bind;
      [apply repeatable_read, build_template_no_slash |].
    intros tpl. apply repeatable_bind; [apply repeatable_lift |].
    intros sd. apply repeatable_lift. }
  intros _. apply repeatable_bind.
  { apply repeatable_with_open_w;
      [now apply recipe_file_has_slash | apply repeatable_lift]. }
  intros _.
  apply repeatable_with_open_w; [now apply recipe_file_has_slash |].
  now apply repeatable_read.
Qed.

Lemma repeatable_loop_body (e : env) (tp : templates) (b : block) :
  repeatable (loop_body e tp b).
Proof.
  unfold loop_body. apply repeatable_bind; [apply repeatable_lift |].
  intros [[program description]|];
    [apply repeatable_write_recipe | apply repeatable_ret].
Qed.

Lemma repeatable_for_blocks (e : env) (tp : templates) (blocks : list block) :
  repeatable (for_blocks e tp blocks).
Proof.
  induction blocks as [|b rest IH]; [apply repeatable_ret |].
  cbn [for_blocks].
  apply repeatable_bind; [apply repeatable_loop_body | now intros _].
Qed.

Lemma repeatable_main (e : env) : repeatable (main e).
Proof.
  unfold main.
  apply repeatable_bind; [now apply repeatable_read |]. intros meta.
  apply repeatable_bind; [now apply repeatable_read |]. intros build.
  apply repeatable_bind; [now apply repeatable_read |]. intros test.
  apply repeatable_for_blocks.
Qed.

(** A state covers itself at the end of the run that reached it, and a
    state that covers the end of a run has its files and directories. *)
Lemma cover_end (s s1 : state) : Cover s s1 s1.
Proof. split; auto. Qed.

Lemma cover_at_end (s1 s' : state) :
  Cover s1 s1 s' -> dirs s' = dirs s1 /\ files s' = files s1.
Proof.
  intros [HD _ HC]. split; [exact HD |].
  apply map_eq. intros p. now destruct (HC p).
Qed.

End RunFacts.

Import PathFacts RunFacts.

(** C7: a second run on the state the first run left, with the same
    manifest, archive and templates, ends as the first did and leaves
    every directory and every file as the first run left it. *)
Theorem rerun_idempotent (e : env) (st : state) :
  fst (main e (snd (main e st))) = fst (main e st)
  /\ dirs (snd (main e (snd (main e st)))) = dirs (snd (main e st))
  /\ files (snd (main e (snd (main e st)))) = files (snd (main e st)).
Proof.
  destruct (repeatable_main e) as [_ Hsim].
  destruct (Hsim st (snd (main e st)) (snd (main e st))) as [Hr HC].
  - apply Future_refl.
  - reflexivity.
  - apply cover_end.
  - split; [exact Hr |]. now apply cover_at_end.
Qed.
(** ** The recipe of a program with a custom build script *)

Module RecipeFacts.

Import StrFacts PathFacts.

Lemma endswith_app (a b suf : string) :
  b <> "" -> Str.endswith (a +:+ b) suf = Str.endswith b suf.
Proof.
  intros Hb. induction a as [|c a IH]; [reflexivity |].
  change (String c a +:+ b) with (String c (a +:+ b)).
  destruct (a +:+ b) as [|c' s] eqn:E; [|exact IH].
  destruct a; [simpl in E; congruence | discriminate].
Qed.

Lemma endswith_join (a b : string) :
  b <> "" -> Str.startswith b "/" = false ->
  Str.endswith (Path.join a b) "/" = Str.endswith b "/".
Proof.
  intros Hb Hrel.
  destruct (join_relative a b Hrel) as [[-> _] | [[-> _] | [-> _]]].
  - reflexivity.
  - now apply endswith_app.
  - rewrite endswith_app; [now apply (endswith_app "/") | ].
    intros H. discriminate.
Qed.

Lemma head_no_slash (f : string) : Str.any Str.is_slash f = false -> Path.head f = "".
Proof. destruct f as [|c f]; [reflexivity |]. cbn [Path.head]. now intros ->. Qed.

Lemma head_of_file (d f : string) :
  Str.any Str.is_slash f = false -> Path.head (d +:+ "/" +:+ f) = d +:+ "/".
Proof.
  intros Hf. induction d as [|c d IH].
  - change ("" +:+ "/" +:+ f) with (String "/" f). cbn [Path.head].
    rewrite any_cons. change (Str.is_slash "/") with true. cbn [orb].
    now rewrite (head_no_slash f Hf).
  - change (String c d +:+ "/" +:+ f) with (String c (d +:+ "/" +:+ f)).
    cbn [Path.head]. rewrite any_cons.
    assert (Hs : Str.any Str.is_slash (d +:+ "/" +:+ f) = true).
    { rewrite any_app. apply orb_true_iff. right. reflexivity. }
    rewrite Hs, orb_true_r, IH. reflexivity.
Qed.

Lemma all_slash_ends (d : string) :
  d <> "" -> Str.all Str.is_slash d = true -> Str.endswith d "/" = true.
Proof.
  induction d as [|c d IH]; [easy |]. intros _.
  cbn [Str.all]. intros [Hc Hd]%andb_true_iff.
  destruct d as [|c' d].
  - cbn [Str.endswith]. apply String.eqb_eq. f_equal.
    now apply Ascii.eqb_eq in Hc.
  - now apply IH.
Qed.

Lemma rstrip_of_dir (d : string) :
  d <> "" -> Str.endswith d "/" = false -> Path.rstrip_slash (d +:+ "/") = d.
Proof.
  induction d as [|c d IH]; [easy |]. intros _ He.
  change (String c d +:+ "/") with (String c (d +:+ "/")).
  cbn [Path.rstrip_slash].
  destruct (Str.all Str.is_slash (String c (d +:+ "/"))) eqn:Ea.
  - exfalso.
    change (String c (d +:+ "/")) with (String c d +:+ "/") in Ea.
    rewrite all_app in Ea. apply andb_true_iff in Ea as [Ea _].
    apply all_slash_ends in Ea; [congruence | discriminate].
  - f_equal. destruct d as [|c' d]; [reflexivity |].
    apply IH; [discriminate | exact He].
Qed.

(** The directory of a file of [d] is [d]. *)
Lemma dirname_join (d f : string) :
  d <> "" -> Str.endswith d "/" = false ->
  Str.any Str.is_slash f = false ->
  Path.join d f = d +:+ "/" +:+ f /\ Path.dirname (Path.join d f) = d.
Proof.
  intros Hd He Hf.
  assert (Hj : Path.join d f = d +:+ "/" +:+ f).
  { unfold Path.join.
    assert (Hrel : Str.startswith f "/" = false).
    { destruct f as [|c f]; [reflexivity |].
      cbn [Str.any] in Hf. apply orb_false_iff in Hf as [Hc _].
      unfold Str.startswith. cbn [Str.strip_prefix].
      unfold Str.is_slash in Hc. rewrite Ascii.eqb_sym in Hc. now rewrite Hc. }
    rewrite Hrel. destruct d as [|c d]; [easy |]. now rewrite He. }
  split; [exact Hj |].
  rewrite Hj. unfold Path.dirname. rewrite (head_of_file d f Hf).
  destruct (Str.all Str.is_slash (d +:+ "/")) eqn:Ea.
  - exfalso. rewrite all_app in Ea. apply andb_true_iff in Ea as [Ea _].
    apply all_slash_ends in Ea; [congruence | exact Hd].
  - now apply rstrip_of_dir.
Qed.

Lemma sapp_inv_head (a b c : string) : a +:+ b = a +:+ c -> b = c.
Proof.
  induction a as [|x a IH]; [easy |].
  intros H. injection H as H. now apply IH.
Qed.

Lemma sapp_neq_self (a b : string) : b <> "" -> a +:+ b <> a.
Proof.
  intros Hb H. rewrite <- (sapp_nil_r a) in H at 2.
  now apply sapp_inv_head in H.
Qed.

(** *** Statements that print nothing, statements that keep a file *)

Lemma bind_run {A B} (m : M A) (k : A -> M B) (s s' : state) (a : A) :
  m s = (inr a, s') -> bind m k s = k a s'.
Proof. intros H. unfold bind. now rewrite H. Qed.

Lemma silent_bind {A B} (m : M A) (k : A -> M B) :
  silent m -> (forall a, silent (k a)) -> silent (bind m k).
Proof.
  intros Hm Hk s. unfold bind. specialize (Hm s).
  destruct (m s) as [[x|a] sm]; [exact Hm |].
  cbn [snd] in Hm. now rewrite Hk.
Qed.


Lemma with_open_w_silent (p : string) (content : M string) :
  silent content -> silent (Os.with_open_w p content).
Proof.
  intros Hc. unfold Os.with_open_w.
  apply silent_bind.
  { intros s. unfold Os.open_w. now destruct (_ && _). }
  intros _. apply silent_bind; [exact Hc |]. now intros c s.
Qed.


Lemma lift_silent {A} (r : result A) : silent (lift r).
Proof. now intros s. Qed.


Lemma read_silent (p : string) : silent (Os.read p).
Proof. intros s. unfold Os.read. now destruct (files s !! p). Qed.


(** A file whose content is computed without failure is written when
    its place is free and its directory exists. *)
Lemma with_open_w_run (p c : string) (content : M string) (s : state) :
  p ∉ dirs s -> Path.dirname p ∈ dirs s ->
  (forall s', dirs s' = dirs s -> console s' = console s ->
              files s' = <[ p := "" ]> (files s) -> content s' = (inr c, s')) ->
  Os.with_open_w p content s
  = (inr tt, set_files (<[ p := c ]> (files s)) s).
Proof.
  intros Hnd Hpar Hc. unfold Os.with_open_w.
  assert (Ho : Os.open_w p s
               = (inr tt, set_files (<[ p := "" ]> (files s)) s)).
  { unfold Os.open_w, Os.parent_ok.
    rewrite (bool_decide_eq_false_2 _ Hnd), (bool_decide_eq_true_2 _ Hpar).
    now rewrite orb_true_r. }
  rewrite (bind_run _ _ _ _ _ Ho).
  rewrite (bind_run _ _ _ _ c
             (Hc (set_files (<[ p := "" ]> (files s)) s)
                 eq_refl eq_refl eq_refl)).
  unfold Os.write, set_files. cbn [dirs files console].
  now rewrite insert_insert_eq.
Qed.



End RecipeFacts.
Import RecipeFacts.


(** * Further properties *)

(** ** The patterns and the parser *)

Module GrammarFacts.

Import StrFacts ReFacts ParseFacts.

Lemma greedy_run cl k (p s : string) (ps : list string) :
  Str.all cl p = true -> stops cl s -> k s = Some ps ->
  Re.greedy cl k (p +:+ s) = Some (p :: ps).
Proof.
  intros Hp Hs Hk. induction p as [|c p IH].
  - change ("" +:+ s) with s. destruct s as [|c s]; simpl in *.
    + now rewrite Hk.
    + now rewrite Hs, Hk.
  - cbn [Str.all] in Hp. apply andb_true_iff in Hp as [Hc Hp].
    change (String c p +:+ s) with (String c (p +:+ s)).
    cbn [Re.greedy]. now rewrite Hc, (IH Hp).
Qed.

Lemma plus_run cl (r : list Re.atom) (p s : string) (ps : list string) :
  run_of cl p -> stops cl s -> Re.rmatch r s = Some ps ->
  Re.rmatch (Re.Plus cl :: r) (p +:+ s) = Some (p :: ps).
Proof.
  intros [Hne Hp] Hs Hk. destruct p as [|c p]; [easy |].
  cbn [Str.all] in Hp. apply andb_true_iff in Hp as [Hc Hp].
  change (String c p +:+ s) with (String c (p +:+ s)).
  cbn [Re.rmatch]. now rewrite Hc, (greedy_run cl _ p s ps Hp Hs Hk).
Qed.

Lemma stops_run (cl cl' : ascii -> bool) (p s : string) :
  (forall c, cl' c = true -> cl c = false) ->
  run_of cl' p -> stops cl (p +:+ s).
Proof.
  intros Hd [Hne Hp]. destruct p as [|c p]; [easy |].
  cbn [Str.all] in Hp. apply andb_true_iff in Hp as [Hc _].
  simpl. now apply Hd.
Qed.

Lemma space_not_eq (c : ascii) : Str.is_space c = true -> Str.is_eq c = false.
Proof.
  unfold Str.is_eq. destruct (Ascii.eqb_spec c "="%char) as [->|]; [|reflexivity].
  vm_compute. discriminate.
Qed.

Lemma eq_not_space (c : ascii) : Str.is_eq c = true -> Str.is_space c = false.
Proof. intros ->%Ascii.eqb_eq. reflexivity. Qed.

Lemma word_not_space (c : ascii) : Str.is_word c = true -> Str.is_space c = false.
Proof.
  destruct c as [[] [] [] [] [] [] [] []]; vm_compute; congruence.
Qed.

Lemma space_not_word (c : ascii) : Str.is_space c = true -> Str.is_word c = false.
Proof.
  intros H. destruct (Str.is_word c) eqn:E; [|reflexivity].
  apply word_not_space in E. congruence.
Qed.

Lemma eol_inv (s : string) (out : list string) :
  Re.rmatch [Re.Eol] s = Some out -> line_end s.
Proof.
  simpl. destruct s as [|c [|c' s]]; simpl; try discriminate.
  - now right.
  - destruct (Ascii.eqb_spec c Str.nl) as [->|]; [now left | discriminate].
Qed.

Lemma eol_run (tl : string) : line_end tl -> Re.rmatch [Re.Eol] tl = Some [""].
Proof. intros [-> | ->]; reflexivity. Qed.

(** The header pattern, read as a grammar. *)
Lemma re_header_shape (line name : string) :
  re_header_match line = Some name <->
  exists e1 w1 w2 e2 tl,
    line = e1 +:+ w1 +:+ name +:+ w2 +:+ e2 +:+ tl
    /\ run_of Str.is_eq e1 /\ run_of Str.is_space w1
    /\ run_of Str.is_word name
    /\ run_of Str.is_space w2 /\ run_of Str.is_eq e2 /\ line_end tl.
Proof.
  unfold re_header_match, re_header. split.
  - destruct (Re.rmatch _ line) as [out|] eqn:E; [|discriminate].
    apply plus_inv in E as (e1 & o1 & s1 & -> & He1 & Hn1 & -> & E).
    apply plus_inv in E as (w1 & o2 & s2 & -> & Hw1 & Hn2 & -> & E).
    apply plus_inv in E as (nm & o3 & s3 & -> & Hnm & Hn3 & -> & E).
    apply plus_inv in E as (w2 & o4 & s4 & -> & Hw2 & Hn4 & -> & E).
    apply plus_inv in E as (e2 & o5 & s5 & -> & He2 & Hn5 & -> & E).
    pose proof (eol_inv _ _ E) as Htl.
    simpl in E. destruct (Re.at_eol s5); [|discriminate].
    injection E as <-. intros [= <-].
    exists e1, w1, w2, e2, s5. unfold run_of. auto 10.
  - intros (e1 & w1 & w2 & e2 & tl & -> & He1 & Hw1 & Hnm & Hw2 & He2 & Htl).
    rewrite (plus_run Str.is_eq _ e1 _ [w1; name; w2; e2; ""]); [reflexivity | exact He1 | |].
    { now apply (stops_run _ Str.is_space); [apply space_not_eq |]. }
    apply plus_run; [exact Hw1 | |].
    { now apply (stops_run _ Str.is_word); [apply word_not_space |]. }
    apply plus_run; [exact Hnm | |].
    { now apply (stops_run _ Str.is_space); [apply space_not_word |]. }
    apply plus_run; [exact Hw2 | |].
    { now apply (stops_run _ Str.is_eq); [apply eq_not_space |]. }
    apply plus_run; [exact He2 | | now apply eol_run].
    destruct Htl as [-> | ->]; reflexivity.
Qed.

End GrammarFacts.
Module BlockFacts.

Import StrFacts ReFacts ParseFacts GrammarFacts.

Lemma readlines_first_nl (body rest : string) :
  no_nl body ->
  Str.readlines (body +:+ Str.NL +:+ rest)
  = (body +:+ Str.NL) :: Str.readlines rest.
Proof.
  intros Hb. now rewrite readlines_after_nl, readlines_line.
Qed.

(** The lines of a text that starts with the line [body +:+ tl]; the
    body may be empty when the newline is there. *)
Lemma readlines_head (body tl rest : string) :
  no_nl body -> body +:+ tl <> "" ->
  tl = Str.NL \/ (tl = "" /\ rest = "") ->
  Str.readlines (body +:+ tl +:+ rest) = (body +:+ tl) :: Str.readlines rest.
Proof.
  intros Hb Hne [-> | [-> ->]].
  - now apply readlines_first_nl.
  - rewrite !sapp_nil_r in *. now apply readlines_body.
Qed.

Lemma header_nonempty (line name : string) :
  re_header_match line = Some name -> line <> "".
Proof. intros H ->. discriminate. Qed.

(** The parser, started on a header line, opens a block for it. *)
Lemma parse_lines_at_header (h name : string) (rest : list string) :
  re_header_match h = Some name ->
  parse_lines None (h :: rest) = parse_lines (Some name) rest.
Proof. intros Hh. simpl. now rewrite Hh. Qed.

(** A text splits before a header line. *)
Lemma parse_footer_before_header (pre hbody tl rest name : string) :
  complete pre -> no_nl hbody ->
  tl = Str.NL \/ (tl = "" /\ rest = "") ->
  re_header_match (hbody +:+ tl) = Some name ->
  parse_footer (pre +:+ hbody +:+ tl +:+ rest)
  = parse_footer pre ++ parse_footer (hbody +:+ tl +:+ rest).
Proof.
  intros Hpre Hb Htl Hh. unfold parse_footer.
  rewrite (readlines_app pre _ Hpre).
  rewrite (readlines_head hbody tl rest Hb (header_nonempty _ _ Hh) Htl).
  now rewrite (parse_lines_header None _ _ _ _ Hh), (parse_lines_at_header _ _ _ Hh).
Qed.

(** A line that neither pattern matches changes nothing. *)
Lemma parse_lines_junk (pending : option string) (l1 l2 : list string)
    (junk : string) :
  re_header_match junk = None -> re_summary_match junk = None ->
  parse_lines pending (l1 ++ junk :: l2) = parse_lines pending (l1 ++ l2).
Proof.
  intros Hh Hs. revert pending.
  induction l1 as [|l l1 IH]; intros pending; cbn [app parse_lines].
  - now rewrite Hh, Hs.
  - destruct (re_header_match l); [now rewrite IH |].
    destruct (re_summary_match l); [|apply IH].
    destruct pending; now rewrite IH.
Qed.

Lemma parse_lines_headers (pending : option string) (lines : list string) :
  map block_header (parse_lines pending lines)
  = match pending with Some n => [n] | None => [] end ++ header_names lines.
Proof.
  revert pending. induction lines as [|l lines IH]; intros pending.
  - destruct pending; reflexivity.
  - cbn [parse_lines header_names].
    destruct (re_header_match l) as [n|] eqn:Eh.
    + rewrite map_app, IH. now destruct pending.
    + destruct (re_summary_match l) as [g|]; [|apply IH].
      destruct pending; cbn [map]; now rewrite IH.
Qed.

(** *** What a summary line yields *)

Lemma lazy_inv cl k (s : string) (out : list string) :
  Re.lazy cl k s = Some out ->
  exists p ps s',
    out = p :: ps /\ Str.all cl p = true /\ s = p +:+ s' /\ k s' = Some ps.
Proof.
  revert out. induction s as [|c s IH]; intros out H.
  - simpl in H. destruct (Re.emit "" (k "")) as [r|] eqn:E; [|discriminate].
    injection H as ->. apply emit_inv in E as [ps [Hk ->]].
    exists "", ps, "". auto.
  - rewrite lazy_cons in H.
    destruct (Re.emit "" (k (String c s))) as [r|] eqn:E.
    + injection H as ->. apply emit_inv in E as [ps [Hk ->]].
      exists "", ps, (String c s). auto.
    + destruct (cl c) eqn:Hc; [|discriminate].
      apply push_inv in H as [p [ps [Hl ->]]].
      destruct (IH _ Hl) as [p' [ps' [s' [[= <- <-] [Hall [-> Hk]]]]]].
      exists (String c p), ps, s'. simpl. rewrite Hc, Hall. auto.
Qed.

Lemma re_summary_inv (line name description : string) :
  re_summary_match line = Some (name, description) ->
  (exists c r, name = String c r /\ Str.is_word c = true)
  /\ no_nl name /\ no_nl description.
Proof.
  unfold re_summary_match, re_summary.
  destruct line as [|c line]; [discriminate |].
  rewrite rmatch_one. destruct (Str.is_word c) eqn:Hc; [|discriminate].
  rewrite rmatch_star_lazy.
  destruct (Re.lazy _ _ line) as [out|] eqn:E; [|discriminate].
  apply lazy_inv in E as (p & ps & s' & -> & Hp & -> & E).
  rewrite rmatch_lit in E.
  destruct (Str.strip_prefix " - " s') as [s''|]; [|discriminate].
  apply emit_inv in E as (ps' & E & ->).
  apply greedy_inv in E as (d & ps'' & s3 & -> & Hd & -> & E).
  simpl in E. destruct (Re.at_eol s3); [|discriminate]. injection E as <-.
  cbn [Re.emit]. intros [= <- <-]. split; [eauto |]. split; [|exact Hd].
  apply no_nl_cons. split; [now apply word_is_dot | exact Hp].
Qed.

Lemma split_from_some (w s : string) : Str.split_from (Some w) s <> [].
Proof.
  revert w. induction s as [|c s IH]; intros w; simpl; [discriminate |].
  destruct (Str.is_space c); [discriminate | apply IH].
Qed.

Lemma split_word_first (c : ascii) (r : string) :
  Str.is_word c = true -> exists token more, Str.split (String c r) = token :: more.
Proof.
  intros Hc. unfold Str.split. cbn [Str.split_from].
  rewrite (word_not_space c Hc).
  destruct (Str.split_from _ r) as [|token more] eqn:E; [|eauto].
  now apply split_from_some in E.
Qed.

Lemma parse_lines_shape (pending : option string) (lines : list string) :
  match pending with Some n => run_of Str.is_word n | None => True end ->
  Forall block_shape (parse_lines pending lines).
Proof.
  revert pending. induction lines as [|l lines IH]; intros pending Hp.
  - destruct pending; constructor; [|constructor]. now split.
  - cbn [parse_lines].
    destruct (re_header_match l) as [n|] eqn:Eh.
    + apply Forall_app. split.
      * destruct pending; constructor; [|constructor]. now split.
      * apply IH. apply re_header_word in Eh as [Hw Hne]. now split.
    + destruct (re_summary_match l) as [[sn d]|] eqn:Es; [|now apply IH].
      destruct pending as [n|]; [|now apply IH].
      constructor; [|now apply IH].
      destruct (re_summary_inv _ _ _ Es) as ((c & r & -> & Hc) & Hsn & Hd).
      split; [exact Hp |]. split; [eauto |]. split; [exact Hsn |].
      split; [exact Hd |]. now apply split_word_first.
Qed.

End BlockFacts.

Import GrammarFacts BlockFacts.

(** X1: the header pattern as a grammar: a line is a header line for
    [name] exactly when it is a run of [=], a run of whitespace, the
    name, a word, a run of whitespace and a run of [=], up to the end of
    the line. *)
Theorem re_header_grammar (line name : string) :
  re_header_match line = Some name <->
  exists e1 w1 w2 e2 tl,
    line = e1 +:+ w1 +:+ name +:+ w2 +:+ e2 +:+ tl
    /\ run_of Str.is_eq e1 /\ run_of Str.is_space w1
    /\ run_of Str.is_word name
    /\ run_of Str.is_space w2 /\ run_of Str.is_eq e2 /\ line_end tl.
Proof. apply re_header_shape. Qed.

(** X2: a manifest that ends with a header line yields, after the blocks
    of the text before it, the one-part block of that header. *)
Theorem trailing_header_block (pre hbody tl name : string) :
  complete pre -> no_nl hbody -> line_end tl ->
  re_header_match (hbody +:+ tl) = Some name ->
  parse_footer (pre +:+ hbody +:+ tl) = parse_footer pre ++ [Block1 name].
Proof.
  intros Hpre Hb Htl Hh.
  assert (Htl' : tl = Str.NL \/ (tl = "" /\ "" = ""))
    by (destruct Htl as [-> | ->]; auto).
  rewrite <- (sapp_nil_r tl).
  rewrite (parse_footer_before_header pre hbody tl "" name Hpre Hb Htl' Hh).
  f_equal. unfold parse_footer.
  rewrite (readlines_head hbody tl "" Hb (header_nonempty _ _ Hh) Htl').
  now rewrite (parse_lines_at_header _ _ _ Hh).
Qed.

Lemma trailing_header_block_witness :
  parse_footer (("a - first" +:+ Str.NL) +:+ "=== addCols ===" +:+ "")
  = parse_footer ("a - first" +:+ Str.NL) ++ [Block1 "addCols"].
Proof.
  apply (trailing_header_block ("a - first" +:+ Str.NL) "=== addCols ===" ""
           "addCols").
  - right. now exists "a - first".
  - reflexivity.
  - now right.
  - reflexivity.
Defined.

(** X3: manifests concatenate before a header line: the blocks of a text
    whose second part starts with a header line are the blocks of the
    first part followed by those of the second. *)
Theorem parse_footer_splits_at_header (pre hbody tl rest name : string) :
  complete pre -> no_nl hbody ->
  tl = Str.NL \/ (tl = "" /\ rest = "") ->
  re_header_match (hbody +:+ tl) = Some name ->
  parse_footer (pre +:+ hbody +:+ tl +:+ rest)
  = parse_footer pre ++ parse_footer (hbody +:+ tl +:+ rest).
Proof. apply parse_footer_before_header. Qed.

Lemma parse_footer_splits_at_header_witness :
  parse_footer (("=== a ===" +:+ Str.NL)
                +:+ "=== b ===" +:+ Str.NL +:+ "b - does b")
  = parse_footer ("=== a ===" +:+ Str.NL)
    ++ parse_footer ("=== b ===" +:+ Str.NL +:+ "b - does b").
Proof.
  apply (parse_footer_splits_at_header ("=== a ===" +:+ Str.NL) "=== b ==="
           Str.NL "b - does b" "b").
  - right. now exists "=== a ===".
  - reflexivity.
  - now left.
  - reflexivity.
Defined.

(** X4: a line that is neither a header nor a summary line is skipped
    without a trace: the manifest parses as it does without the line. *)
Theorem junk_line_skipped (pre body post : string) :
  complete pre -> no_nl body ->
  re_header_match (body +:+ Str.NL) = None ->
  re_summary_match (body +:+ Str.NL) = None ->
  parse_footer (pre +:+ (body +:+ Str.NL) +:+ post) = parse_footer (pre +:+ post).
Proof.
  intros Hpre Hb Hh Hs. unfold parse_footer.
  rewrite !(readlines_app pre _ Hpre), sapp_assoc, (readlines_first_nl _ _ Hb).
  now apply parse_lines_junk.
Qed.

Lemma junk_line_skipped_witness :
  parse_footer (("=== a ===" +:+ Str.NL)
                +:+ ("   usage: a [options]" +:+ Str.NL)
                +:+ "a - does a")
  = parse_footer (("=== a ===" +:+ Str.NL) +:+ "a - does a").
Proof.
  apply (junk_line_skipped ("=== a ===" +:+ Str.NL) "   usage: a [options]"
           "a - does a").
  - right. now exists "=== a ===".
  - reflexivity.
  - reflexivity.
  - reflexivity.
Defined.

(** X5: every header line yields exactly one block, and the blocks come
    in the order of the header lines: the header names of the blocks are
    the names of the header lines of the manifest. *)
Theorem one_block_per_header (text : string) :
  map block_header (parse_footer text) = header_names (Str.readlines text).
Proof. unfold parse_footer. now rewrite parse_lines_headers. Qed.

(** X6: every block the parser yields has a non-empty word as its header
    name; in a two-part block the summary name starts with a word
    character and so has a first token, and neither the summary name nor
    the description holds a newline. *)
Theorem parsed_blocks_shape (text : string) :
  Forall block_shape (parse_footer text).
Proof. unfold parse_footer. now apply parse_lines_shape. Qed.
(** ** The locator *)

Module HitFacts.

Import StrFacts LocatorFacts.

(** The hit that [sorted] puts first is the same for two lists of the
    same hits. *)
Lemma sorted_head_ext (l l' : list string) :
  (forall i, i ∈ l <-> i ∈ l') -> head (Str.sorted l) = head (Str.sorted l').
Proof.
  intros Hext.
  pose proof (sorted_least l) as Hl. pose proof (sorted_least l') as Hl'.
  destruct (Str.sorted l) as [|a r] eqn:E, (Str.sorted l') as [|a' r'] eqn:E'.
  - reflexivity.
  - apply sorted_nil in E as ->. exfalso.
    apply (elem_of_nil a'), Hext, sorted_elem. rewrite E'. now left.
  - apply sorted_nil in E' as ->. exfalso.
    apply (elem_of_nil a), Hext, sorted_elem. rewrite E. now left.
  - simpl. f_equal. apply String.leb_antisym.
    + apply Hl. rewrite <- E. apply sorted_elem, Hext, sorted_elem.
      rewrite E'. now left.
    + apply Hl'. rewrite <- E'. apply sorted_elem, Hext, sorted_elem.
      rewrite E. now left.
Qed.

Lemma program_subdir_head (t : TarFile) (program : string)
    (names hits : list string) :
  hits_of t program names = inr hits ->
  program_subdir t program names
  = inr (Str.replace "./userApps/" "" <$> head (Str.sorted hits)).
Proof.
  intros H. unfold program_subdir. rewrite H.
  now destruct (Str.sorted hits).
Qed.

Lemma getmember_unlisted (t : TarFile) (n : string) :
  n ∉ getnames t ->
  getmember t n = inl (KeyError ("filename " +:+ Str.repr n +:+ " not found")).
Proof.
  intros Hn. unfold getmember.
  destruct (find _ (rev t)) as [m|] eqn:E; [|reflexivity].
  exfalso. apply find_some in E as [Hin He]. apply Hn.
  apply String.eqb_eq in He as <-.
  apply list_elem_of_In, in_map. now apply in_rev.
Qed.

Lemma hits_of_app (t : TarFile) (program : string) (l1 l2 : list string) :
  hits_of t program (l1 ++ l2)
  = match hits_of t program l1 with
    | inl x => inl x
    | inr h1 =>
        match hits_of t program l2 with
        | inl x => inl x
        | inr h2 => inr (h1 ++ h2)
        end
    end.
Proof.
  induction l1 as [|i l1 IH]; cbn [app hits_of].
  - now destruct (hits_of t program l2).
  - destruct (Str.contains program i); [|exact IH].
    destruct (getmember t i) as [x|m]; [reflexivity |].
    rewrite IH. destruct (hits_of t program l1) as [x|h1]; [reflexivity |].
    destruct (hits_of t program l2) as [x|h2]; [reflexivity |].
    now destruct (isdir m).
Qed.

Lemma contains_trans (a b c : string) :
  Str.contains a b = true -> Str.contains b c = true -> Str.contains a c = true.
Proof.
  rewrite !contains_iff. intros (x & y & ->) (u & v & ->).
  exists (u +:+ x), (y +:+ v). now rewrite !sapp_assoc.
Qed.

Lemma names_of_listed (t : TarFile) (n : string) :
  n ∈ names_of t ->
  n ∈ getnames t /\ Str.startswith n "./userApps/kent/src" = true.
Proof. unfold names_of. rewrite list_elem_of_filter. tauto. Qed.

(** Where the text to replace does not start, the character stays. *)
Lemma replace_from_keep (old new : string) (o c : ascii) (s : string) :
  Ascii.eqb o c = false ->
  Str.replace_from 0 (String o old) new (String c s)
  = String c (Str.replace_from 0 (String o old) new s).
Proof.
  intros H. cbn [Str.replace_from]. unfold Str.startswith.
  cbn [Str.strip_prefix]. now rewrite H.
Qed.

Lemma replace_from_skip (old new p s : string) :
  Str.replace_from (String.length p) old new (p +:+ s)
  = Str.replace_from 0 old new s.
Proof.
  induction p as [|c p IH]; [reflexivity |].
  change (String c p +:+ s) with (String c (p +:+ s)). exact IH.
Qed.

(** An occurrence at the start is replaced. *)
Lemma replace_from_prefix (o : ascii) (old new s : string) :
  Str.replace_from 0 (String o old) new (String o old +:+ s)
  = new +:+ Str.replace_from 0 (String o old) new s.
Proof.
  change (String o old +:+ s) with (String o (old +:+ s)).
  cbn [Str.replace_from].
  change (String o (old +:+ s)) with (String o old +:+ s).
  unfold Str.startswith. rewrite strip_prefix_app.
  f_equal. replace (String.length (String o old) - 1) with (String.length old)
    by (simpl; lia).
  apply replace_from_skip.
Qed.

Lemma replace_userapps (r : string) :
  exists r',
    Str.replace "./userApps/" "" ("./userApps/kent/src" +:+ r)
    = "kent/src" +:+ r'.
Proof.
  exists (Str.replace "./userApps/" "" r). unfold Str.replace.
  change ("./userApps/kent/src" +:+ r)
    with ("./userApps/" +:+ "kent/src" +:+ r).
  rewrite replace_from_prefix.
  change ("kent/src" +:+ r)
    with (String "k" (String "e" (String "n" (String "t" (String "/"
          (String "s" (String "r" (String "c" r)))))))).
  rewrite !replace_from_keep by reflexivity. reflexivity.
Qed.

End HitFacts.

Import HitFacts.

(** X7: the locator does not depend on the order of the listing, nor on
    repeated entries: two listings of members of the archive with the
    same entries give the same result. *)
Theorem program_subdir_order_independent (t : TarFile) (program : string)
    (names names' : list string) :
  (forall n, n ∈ names -> n ∈ getnames t) ->
  (forall n, n ∈ names <-> n ∈ names') ->
  program_subdir t program names = program_subdir t program names'.
Proof.
  intros Hl Hext.
  destruct (hits_of_listed t program names Hl) as (hits & Hh & Hiff).
  destruct (hits_of_listed t program names') as (hits' & Hh' & Hiff').
  { intros n Hn. now apply Hl, Hext. }
  rewrite (program_subdir_head _ _ _ _ Hh), (program_subdir_head _ _ _ _ Hh').
  do 2 f_equal. apply sorted_head_ext.
  intros i. rewrite Hiff, Hiff', Hext. tauto.
Qed.

Lemma program_subdir_order_independent_witness :
  program_subdir listing_AB "toolA"
    ["./userApps/kent/src/toolA/"; "./userApps/kent/src/toolAB/"]
  = program_subdir listing_AB "toolA"
      ["./userApps/kent/src/toolAB/"; "./userApps/kent/src/toolA/";
       "./userApps/kent/src/toolAB/"].
Proof.
  apply (program_subdir_order_independent listing_AB "toolA").
  - intros n Hn. exact Hn.
  - intros n. rewrite !elem_of_cons, !elem_of_nil. tauto.
Defined.

(** X8: on the listing the script computes from the archive the locator
    raises nothing, and a directory it finds is a path below [kent/src]. *)
Theorem program_subdir_of_archive (t : TarFile) (program : string) :
  exists r,
    program_subdir t program (names_of t) = inr r
    /\ forall d, r = Some d -> exists rest, d = "kent/src" +:+ rest.
Proof.
  destruct (hits_of_listed t program (names_of t)) as (hits & Hh & Hiff).
  { intros n Hn. now apply names_of_listed in Hn. }
  rewrite (program_subdir_head _ _ _ _ Hh).
  eexists. split; [reflexivity |]. intros d Hd.
  destruct (Str.sorted hits) as [|top rest] eqn:Es; [discriminate |].
  injection Hd as <-.
  assert (Htop : top ∈ names_of t).
  { apply Hiff, StrFacts.sorted_elem. rewrite Es. now left. }
  apply names_of_listed in Htop as [_ Hsw].
  apply StrFacts.startswith_iff in Hsw as [r ->].
  apply replace_userapps.
Qed.

(** X9: an entry of the listing that holds the program name but is no
    member of the archive makes the locator raise [KeyError] for it, when
    the entries before it are members; the message shows the name as
    [repr] writes it. *)
Theorem program_subdir_unlisted_name (t : TarFile) (program : string)
    (before after : list string) (n : string) :
  (forall i, i ∈ before -> i ∈ getnames t) ->
  Str.contains program n = true ->
  n ∉ getnames t ->
  program_subdir t program (before ++ n :: after)
  = inl (KeyError ("filename " +:+ Str.repr n +:+ " not found")).
Proof.
  intros Hb Hc Hn. unfold program_subdir. rewrite hits_of_app.
  destruct (hits_of_listed t program before Hb) as (hits & -> & _).
  cbn [hits_of]. now rewrite Hc, (getmember_unlisted _ _ Hn).
Qed.

Lemma program_subdir_unlisted_name_witness :
  program_subdir listing_AB "toolA"
    (["./userApps/kent/src/toolAB/"] ++ "./userApps/kent/src/toolA.c" :: [])
  = inl (KeyError "filename './userApps/kent/src/toolA.c' not found").
Proof.
  apply (program_subdir_unlisted_name listing_AB "toolA").
  - intros i Hi. apply list_elem_of_singleton in Hi as ->. right. now left.
  - reflexivity.
  - unfold getnames, listing_AB. cbn [map name].
    rewrite !elem_of_cons, elem_of_nil. intros [H | [H | []]]; discriminate.
Defined.

(** X10: the match is by substring, so a program whose name occurs in
    the name of another finds a directory wherever the other does, and
    the entry it takes is no later in byte order. *)
Theorem program_subdir_overmatch (t : TarFile) (short long : string)
    (names : list string) (d : string) :
  (forall n, n ∈ names -> n ∈ getnames t) ->
  Str.contains short long = true ->
  program_subdir t long names = inr (Some d) ->
  exists top top',
    is_hit t long top /\ is_hit t short top' /\ Str.le top' top
    /\ d = Str.replace "./userApps/" "" top
    /\ program_subdir t short names
       = inr (Some (Str.replace "./userApps/" "" top')).
Proof.
  intros Hl Hsub Hlong.
  destruct (hits_of_listed t long names Hl) as (hl & Hhl & Hiffl).
  destruct (hits_of_listed t short names Hl) as (hs & Hhs & Hiffs).
  rewrite (program_subdir_head _ _ _ _ Hhl) in Hlong.
  rewrite (program_subdir_head _ _ _ _ Hhs).
  destruct (Str.sorted hl) as [|top rl] eqn:El; [discriminate |].
  injection Hlong as <-.
  assert (Htop : top ∈ names /\ is_hit t long top).
  { apply Hiffl, StrFacts.sorted_elem. rewrite El. now left. }
  destruct Htop as [Hin [Hc Hm]].
  assert (Hs : top ∈ hs).
  { apply Hiffs. split; [exact Hin |]. split; [|exact Hm].
    apply StrFacts.contains_iff.
    apply (contains_trans short long top Hsub).
    now apply StrFacts.contains_iff. }
  pose proof (StrFacts.sorted_least hs) as Hleast.
  destruct (Str.sorted hs) as [|top' rs] eqn:Es.
  - apply StrFacts.sorted_nil in Es as ->. now apply elem_of_nil in Hs.
  - exists top, top'. split; [now split |].
    assert (Htop' : top' ∈ hs) by (apply StrFacts.sorted_elem; rewrite Es; now left).
    split; [now apply Hiffs in Htop' |].
    split; [|now split].
    apply Hleast. rewrite <- Es. now apply StrFacts.sorted_elem.
Qed.

Lemma program_subdir_overmatch_witness :
  exists top top',
    is_hit listing_AB "toolAB" top /\ is_hit listing_AB "toolA" top'
    /\ Str.le top' top
    /\ "kent/src/toolAB/" = Str.replace "./userApps/" "" top
    /\ program_subdir listing_AB "toolA"
         ["./userApps/kent/src/toolA/"; "./userApps/kent/src/toolAB/"]
       = inr (Some (Str.replace "./userApps/" "" top')).
Proof.
  apply (program_subdir_overmatch listing_AB "toolA" "toolAB"
           ["./userApps/kent/src/toolA/"; "./userApps/kent/src/toolAB/"]
           "kent/src/toolAB/").
  - intros n Hn. exact Hn.
  - reflexivity.
  - reflexivity.
Defined.
(** ** Name resolution *)

Module TokenFacts.

Import StrFacts.

Lemma split_from_run (u w s : string) :
  Str.any Str.is_space w = false ->
  Str.split_from (Some u) (w +:+ s) = Str.split_from (Some (u +:+ w)) s.
Proof.
  revert u. induction w as [|x w IH]; intros u Hw.
  - now rewrite sapp_nil_r.
  - cbn [Str.any] in Hw. apply orb_false_iff in Hw as [Hx Hw].
    change (String x w +:+ s) with (String x (w +:+ s)).
    cbn [Str.split_from]. rewrite Hx, (IH _ Hw).
    now rewrite sapp_assoc.
Qed.

(** The first token of a text that starts with a word and a blank. *)
Lemma split_first_token (w extra : string) (c : ascii) :
  w <> "" -> Str.any Str.is_space w = false -> Str.is_space c = true ->
  Str.split (w +:+ String c extra) = w :: Str.split extra.
Proof.
  intros Hne Hw Hc. destruct w as [|x w]; [easy |].
  cbn [Str.any] in Hw. apply orb_false_iff in Hw as [Hx Hw].
  unfold Str.split.
  change (String x w +:+ String c extra) with (String x (w +:+ String c extra)).
  cbn [Str.split_from]. rewrite Hx.
  change ("" +:+ String x "") with (String x "").
  rewrite (split_from_run _ _ _ Hw).
  cbn [Str.split_from]. now rewrite Hc.
Qed.

Lemma lower_char_not_upper (c : ascii) : is_upper (Str.lower_char c) = false.
Proof. destruct c as [[] [] [] [] [] [] [] []]; reflexivity. Qed.

Lemma lower_not_upper (s : string) : Str.any is_upper (Str.lower s) = false.
Proof.
  induction s as [|c s IH]; [reflexivity |].
  cbn [Str.lower Str.any]. now rewrite lower_char_not_upper, IH.
Qed.

End TokenFacts.

Import TokenFacts.

(** X11: no block of a parsed manifest makes the reduction of the
    summary name to its first token fail: name resolution never raises
    [IndexError] on it. *)
Theorem parsed_block_has_token (text : string) (b : block) (msg : string) :
  b ∈ parse_footer text -> resolve_block b <> inl (IndexError msg).
Proof.
  intros Hb.
  pose proof (parse_lines_shape None (Str.readlines text) I) as Hshape.
  rewrite Forall_forall in Hshape. apply Hshape in Hb as [_ Hb].
  destruct b as [program | program [sn d]]; cbn [resolve_block].
  - destruct (bool_decide _); [discriminate |].
    destruct (manual_descriptions !! program); discriminate.
  - destruct Hb as (_ & _ & _ & token & more & ->).
    destruct (negb _).
    + destruct (resolve_header_and_summary_conflicts !! _); [|discriminate].
      destruct (bool_decide _); discriminate.
    + destruct (bool_decide _); discriminate.
Qed.

Lemma parsed_block_has_token_witness :
  resolve_block (Block2 "a" ("b c", "does b"))
  <> inl (IndexError "list index out of range").
Proof.
  apply (parsed_block_has_token ("=== a ===" +:+ Str.NL +:+ "b c - does b")).
  now left.
Defined.

(** X12: a summary name that is the header name followed by a blank and
    further text, such as a version, resolves to the header name, and the
    description of the summary line is kept. *)
Theorem version_suffix_resolved (header extra description : string)
    (c : ascii) :
  header <> "" -> Str.any Str.is_space header = false ->
  Str.is_space c = true ->
  problematic !! header = None ->
  header ∉ SKIP ->
  resolve_block (Block2 header (header +:+ String c extra, description))
  = inr (Some (header, description)).
Proof.
  intros Hne Hw Hc Hp Hskip. cbn [resolve_block].
  rewrite (split_first_token _ _ _ Hne Hw Hc), Hp. cbn [default].
  rewrite String.eqb_refl. cbn [negb].
  now rewrite (bool_decide_eq_false_2 _ Hskip).
Qed.

Lemma version_suffix_resolved_witness :
  resolve_block
    (Block2 "bedGraphToBigWig"
       ("bedGraphToBigWig" +:+ String " " "v 4", "Convert a bedGraph file"))
  = inr (Some ("bedGraphToBigWig", "Convert a bedGraph file")).
Proof.
  apply version_suffix_resolved.
  - discriminate.
  - reflexivity.
  - reflexivity.
  - reflexivity.
  - unfold SKIP. rewrite list_elem_of_singleton. discriminate.
Defined.

(** X13: the package name of a program holds no upper-case letter,
    whatever the program name is. *)
Theorem package_is_lowercase (program : string) :
  Str.any is_upper (package_of program) = false.
Proof.
  unfold package_of. rewrite StrFacts.any_app, lower_not_upper. reflexivity.
Qed.
(** ** The recipe of a program *)

Module StepFacts.

Import StrFacts PathFacts RunFacts RecipeFacts.

Lemma lower_char_slash (c : ascii) :
  Str.is_slash (Str.lower_char c) = Str.is_slash c.
Proof. destruct c as [[] [] [] [] [] [] [] []]; reflexivity. Qed.

Lemma lower_any_slash (s : string) :
  Str.any Str.is_slash (Str.lower s) = Str.any Str.is_slash s.
Proof.
  induction s as [|c s IH]; [reflexivity |].
  cbn [Str.lower Str.any]. now rewrite lower_char_slash, IH.
Qed.

Lemma no_slash_end (s : string) :
  Str.any Str.is_slash s = false -> Str.endswith s "/" = false.
Proof.
  intros H. destruct (Str.endswith s "/") eqn:E; [|reflexivity].
  apply endswith_slash in E. unfold has_slash in E. congruence.
Qed.

(** The recipe directory of a program without a slash in its name is a
    plain directory path. *)
Lemma recipe_dir_plain (e : env) (program : string) :
  Str.any Str.is_slash program = false ->
  recipe_dir_of e program <> ""
  /\ Str.endswith (recipe_dir_of e program) "/" = false.
Proof.
  intros Hp. split; [apply recipe_dir_nonempty |].
  unfold recipe_dir_of. rewrite endswith_join; [| easy | reflexivity].
  apply no_slash_end. unfold package_of.
  rewrite any_app, lower_any_slash, Hp. reflexivity.
Qed.

Lemma recipe_file_path (e : env) (program f : string) :
  Str.any Str.is_slash program = false ->
  Str.any Str.is_slash f = false ->
  Path.join (recipe_dir_of e program) f = recipe_dir_of e program +:+ "/" +:+ f
  /\ Path.dirname (Path.join (recipe_dir_of e program) f)
     = recipe_dir_of e program.
Proof.
  intros Hp Hf. destruct (recipe_dir_plain e program Hp) as [Hne He].
  now apply dirname_join.
Qed.

Lemma ensure_dir_exact (d : string) (st : state) :
  d ∈ dirs st \/ files st !! d = None ->
  bind (Os.exists_ d)
    (fun ex => if negb ex then Os.makedirs d else ret tt) st
  = (inr tt, set_dirs ({[ d ]} ∪ dirs st) st).
Proof.
  intros H. unfold bind, Os.exists_, Os.makedirs, ret.
  destruct (bool_decide (d ∈ dirs st)) eqn:Ed; cbn [orb negb].
  - apply bool_decide_eq_true in Ed. f_equal.
    unfold set_dirs. replace ({[ d ]} ∪ dirs st) with (dirs st).
    + now destruct st.
    + symmetry. apply subseteq_union_1_L. now apply singleton_subseteq_l.
  - apply bool_decide_eq_false in Ed. destruct H as [H | H]; [easy |].
    assert (Ef : bool_decide (is_Some (files st !! d)) = false).
    { apply bool_decide_eq_false. rewrite H. now intros [x Hx]. }
    rewrite Ef. cbn [negb]. rewrite (bool_decide_eq_false_2 _ Ed), Ef.
    reflexivity.
Qed.

(** A program that is not skipped has its directory ensured and its
    first three files written; the patch follows. *)
Lemma write_recipe_upto_patch (e : env) (tp : templates)
    (program description : string) (subdir : option string)
    (tpl meta build test : string) (st : state) :
  Str.any Str.is_slash program = false ->
  program_subdir (t e) program (names_of (t e)) = inr subdir ->
  (subdir = None -> is_Some (custom_build_scripts !! program)) ->
  recipe_dir_of e program ∈ dirs st
    \/ files st !! recipe_dir_of e program = None ->
  Path.join (recipe_dir_of e program) "meta.yaml" ∉ dirs st ->
  Path.join (recipe_dir_of e program) "build.sh" ∉ dirs st ->
  Path.join (recipe_dir_of e program) "run_test.sh" ∉ dirs st ->
  pyformat (meta_template tp) (meta_kw program description) = inr meta ->
  files st !! default "template-build.sh" (custom_build_scripts !! program)
  = Some tpl ->
  pyformat tpl (build_kw program subdir) = inr build ->
  pyformat (test_template tp) (<[ "program" := PStr program ]> ∅) = inr test ->
  write_recipe e tp program description st
  = Os.with_open_w (Path.join (recipe_dir_of e program) "include.patch")
      (Os.read "include.patch")
      (after_test (recipe_dir_of e program) meta build test st).
Proof.
  intros Hp Hsub Hcustom Hdir Hnm Hnb Hnt Hmeta Htpl Hbuild Htest.
  destruct (recipe_dir_plain e program Hp) as [Hd He].
  unfold recipe_dir_of in *.
  set (d := Path.join (recipes_dir e) (package_of program)) in *.
  destruct (dirname_join d "meta.yaml" Hd He eq_refl) as [Jm Dm].
  destruct (dirname_join d "build.sh" Hd He eq_refl) as [Jb Db].
  destruct (dirname_join d "run_test.sh" Hd He eq_refl) as [Jt Dt].
  assert (Hsm : has_slash (Path.join d "meta.yaml")) by now apply join_has_slash.
  assert (Hsb : has_slash (Path.join d "build.sh")) by now apply join_has_slash.
  assert (Hdm : Path.join d "meta.yaml" <> d)
    by (rewrite Jm; now apply sapp_neq_self).
  assert (Hdb : Path.join d "build.sh" <> d)
    by (rewrite Jb; now apply sapp_neq_self).
  assert (Hdt : Path.join d "run_test.sh" <> d)
    by (rewrite Jt; now apply sapp_neq_self).
  unfold write_recipe. cbv zeta. fold d.
  rewrite (bind_run _ _ st st subdir) by (unfold lift; now rewrite Hsub).
  assert (Hskip : bool_decide (subdir = None)
                  && negb (bool_decide (is_Some (custom_build_scripts !! program)))
                  = false).
  { destruct subdir as [sd|]; [reflexivity |].
    now rewrite (bool_decide_eq_true_2 _ (Hcustom eq_refl)). }
  rewrite Hskip.
  rewrite (bind_run _ _ _ _ _ (ensure_dir_exact d st Hdir)).
  set (s1 := set_dirs ({[ d ]} ∪ dirs st) st).
  assert (Hin : forall p, p <> d -> p ∉ dirs st -> p ∉ dirs s1).
  { intros p Hne Hn [H%elem_of_singleton | H]%elem_of_union; easy. }
  assert (Hd1 : d ∈ dirs s1).
  { apply elem_of_union. left. now apply elem_of_singleton. }
  (* meta.yaml *)
  assert (Rm : forall s', dirs s' = dirs s1 -> console s' = console s1 ->
               files s' = <[ Path.join d "meta.yaml" := "" ]> (files s1) ->
               lift (pyformat (meta_template tp)
                       (<[ "program" := PStr program ]>
                        (<[ "package" := PStr (package_of program) ]>
                         (<[ "summary" := PStr description ]>
                          (<[ "version" := PStr VERSION ]> ∅))))) s'
               = (inr meta, s')).
  { intros s' _ _ _. unfold lift. unfold meta_kw in Hmeta. now rewrite Hmeta. }
  assert (Hpm : Path.dirname (Path.join d "meta.yaml") ∈ dirs s1)
    by now rewrite Dm.
  rewrite (bind_run _ _ _ _ tt
             (with_open_w_run (Path.join d "meta.yaml") meta _ s1
                (Hin _ Hdm Hnm) Hpm Rm)).
  set (s2 := set_files (<[ Path.join d "meta.yaml" := meta ]> (files s1)) s1).
  (* build.sh *)
  set (tn := default "template-build.sh" (custom_build_scripts !! program)) in *.
  assert (Htn : ~ has_slash tn) by apply build_template_no_slash.
  assert (Rb : forall s', dirs s' = dirs s2 -> console s' = console s2 ->
               files s' = <[ Path.join d "build.sh" := "" ]> (files s2) ->
               bind (Os.read tn)
                 (fun _template =>
                    bind (lift (program_subdir (t e) program (names_of (t e))))
                      (fun source_dir =>
                         lift (pyformat _template
                                 (<[ "program" := PStr program ]>
                                  (<[ "program_source_dir" :=
                                        match source_dir with
                                        | Some d => PStr d
                                        | None => PNone
                                        end ]> ∅))))) s'
               = (inr build, s')).
  { intros s' _ _ Hfiles.
    assert (Hread : Os.read tn s' = (inr tpl, s')).
    { unfold Os.read. rewrite Hfiles. cbn [s2 s1 set_files set_dirs files].
      rewrite !lookup_insert_ne, Htpl; [reflexivity | |];
        intros H; apply Htn; now rewrite <- H. }
    rewrite (bind_run _ _ _ _ _ Hread).
    rewrite (bind_run _ _ s' s' subdir) by (unfold lift; now rewrite Hsub).
    unfold lift. unfold build_kw in Hbuild. now rewrite Hbuild. }
  assert (Hpb : Path.dirname (Path.join d "build.sh") ∈ dirs s2)
    by now rewrite Db.
  rewrite (bind_run _ _ _ _ tt
             (with_open_w_run (Path.join d "build.sh") build _ s2
                (Hin _ Hdb Hnb) Hpb Rb)).
  set (s3 := set_files (<[ Path.join d "build.sh" := build ]> (files s2)) s2).
  (* run_test.sh *)
  assert (Rt : forall s', dirs s' = dirs s3 -> console s' = console s3 ->
               files s' = <[ Path.join d "run_test.sh" := "" ]> (files s3) ->
               lift (pyformat (test_template tp)
                       (<[ "program" := PStr program ]> ∅)) s'
               = (inr test, s')).
  { intros s' _ _ _. unfold lift. now rewrite Htest. }
  assert (Hpt : Path.dirname (Path.join d "run_test.sh") ∈ dirs s3)
    by now rewrite Dt.
  rewrite (bind_run _ _ _ _ tt
             (with_open_w_run (Path.join d "run_test.sh") test _ s3
                (Hin _ Hdt Hnt) Hpt Rt)).
  reflexivity.
Qed.

End StepFacts.
Import StepFacts.

(** X14: a program that is not skipped, whose recipe directory is there
    or can be created below the existing recipes directory and whose
    templates format, has its directory ensured and its four files
    written: the metadata, the build script from the default or the
    custom template with the located directory (or [None]), the test
    script and the copy of the patch.  No other file changes, the only
    directory added is the recipe directory, and nothing is printed. *)
Theorem recipe_written (e : env) (tp : templates)
    (program description : string) (subdir : option string)
    (tpl meta build test patch : string) (st : state) :
  Str.any Str.is_slash program = false ->
  recipes_dir e ∈ dirs st ->
  program_subdir (t e) program (names_of (t e)) = inr subdir ->
  (subdir = None -> is_Some (custom_build_scripts !! program)) ->
  recipe_dir_of e program ∈ dirs st
    \/ files st !! recipe_dir_of e program = None ->
  (forall f, f ∈ recipe_files ->
             Path.join (recipe_dir_of e program) f ∉ dirs st) ->
  pyformat (meta_template tp) (meta_kw program description) = inr meta ->
  files st !! default "template-build.sh" (custom_build_scripts !! program)
  = Some tpl ->
  pyformat tpl (build_kw program subdir) = inr build ->
  pyformat (test_template tp) (<[ "program" := PStr program ]> ∅) = inr test ->
  files st !! "include.patch" = Some patch ->
  write_recipe e tp program description st
  = (inr tt,
     {| dirs := {[ recipe_dir_of e program ]} ∪ dirs st;
        files :=
          <[ Path.join (recipe_dir_of e program) "include.patch" := patch ]>
            (<[ Path.join (recipe_dir_of e program) "run_test.sh" := test ]>
               (<[ Path.join (recipe_dir_of e program) "build.sh" := build ]>
                  (<[ Path.join (recipe_dir_of e program) "meta.yaml" := meta ]>
                     (files st))));
        console := console st |}).
Proof.
  intros Hp Hroot Hsub Hcustom Hdir Hfree Hmeta Htpl Hbuild Htest Hpatch.
  assert (Hf : forall f, f ∈ recipe_files ->
               Path.join (recipe_dir_of e program) f ∉ dirs st) by exact Hfree.
  rewrite (write_recipe_upto_patch e tp program description subdir
             tpl meta build test st); try assumption;
    try (apply Hf; unfold recipe_files; rewrite !elem_of_cons; tauto).
  destruct (recipe_file_path e program "include.patch" Hp eq_refl) as [Jp Dp].
  destruct (recipe_dir_plain e program Hp) as [Hd _].
  set (d := recipe_dir_of e program) in *.
  rewrite (RecipeFacts.with_open_w_run (Path.join d "include.patch") patch).
  - reflexivity.
  - cbn [after_test dirs].
    intros [H%elem_of_singleton | H]%elem_of_union.
    + rewrite Jp in H. now apply RecipeFacts.sapp_neq_self in H.
    + revert H. apply Hf. unfold recipe_files. rewrite !elem_of_cons. tauto.
  - rewrite Dp. cbn [after_test dirs]. apply elem_of_union. left.
    now apply elem_of_singleton.
  - intros s' _ _ Hfiles. unfold Os.read. rewrite Hfiles.
    cbn [after_test files].
    rewrite !lookup_insert_ne, Hpatch; [reflexivity | | | |];
      intros H;
      (assert (Hs : has_slash "include.patch");
       [rewrite <- H; now apply PathFacts.join_has_slash | discriminate Hs]).
Qed.

Lemma recipe_written_witness :
  write_recipe (sample_env "") sample_templates "addCols" "Sum columns"
    (set_dirs {[ "scripts/ucsc/../../recipes" ]} sample_state)
  = (inr tt,
     {| dirs := {[ recipe_dir_of (sample_env "") "addCols" ]}
                ∪ dirs (set_dirs {[ "scripts/ucsc/../../recipes" ]}
                          sample_state);
        files :=
          <[ Path.join (recipe_dir_of (sample_env "") "addCols") "include.patch"
             := "--- a/inc/common.mk" ]>
            (<[ Path.join (recipe_dir_of (sample_env "") "addCols") "run_test.sh"
                := "addCols 2>&1 | grep usage" ]>
               (<[ Path.join (recipe_dir_of (sample_env "") "addCols") "build.sh"
                   := "cd kent/src/utils/addCols && make addCols" ]>
                  (<[ Path.join (recipe_dir_of (sample_env "") "addCols") "meta.yaml"
                      := "name: ucsc-addcols # addCols 324: Sum columns" ]>
                     (files (set_dirs {[ "scripts/ucsc/../../recipes" ]}
                               sample_state)))));
        console := console (set_dirs {[ "scripts/ucsc/../../recipes" ]}
                              sample_state) |}).
Proof.
  apply (recipe_written (sample_env "") sample_templates "addCols" "Sum columns"
           (Some "kent/src/utils/addCols")
           "cd {program_source_dir} && make {program}").
  - reflexivity.
  - simpl. now apply elem_of_singleton.
  - reflexivity.
  - discriminate.
  - right. reflexivity.
  - intros f Hf. simpl. intros Hin%elem_of_singleton.
    unfold recipe_files in Hf. rewrite !elem_of_cons, elem_of_nil in Hf.
    destruct Hf as [-> | [-> | [-> | [-> | []]]]]; vm_compute in Hin;
      discriminate.
  - reflexivity.
  - reflexivity.
  - reflexivity.
  - reflexivity.
  - reflexivity.
Defined.



(** X16: where the recipe directory of a program that is not skipped
    exists as a regular file, the guard finds it, no directory is created
    and the step raises [IOError] for the metadata file; the state is as
    it was. *)
Theorem recipe_dir_is_a_file (e : env) (tp : templates)
    (program description : string) (subdir : option string) (st : state) :
  Str.any Str.is_slash program = false ->
  program_subdir (t e) program (names_of (t e)) = inr subdir ->
  (subdir = None -> is_Some (custom_build_scripts !! program)) ->
  is_Some (files st !! recipe_dir_of e program) ->
  recipe_dir_of e program ∉ dirs st ->
  write_recipe e tp program description st
  = (inl (IOError (Path.join (recipe_dir_of e program) "meta.yaml")), st).
Proof.
  intros Hp Hsub Hcustom Hfile Hnd.
  destruct (recipe_file_path e program "meta.yaml" Hp eq_refl) as [Jm Dm].
  destruct (recipe_dir_plain e program Hp) as [Hd He].
  unfold recipe_dir_of in *.
  set (d := Path.join (recipes_dir e) (package_of program)) in *.
  unfold write_recipe. cbv zeta. fold d.
  rewrite (RecipeFacts.bind_run _ _ st st subdir)
    by (unfold lift; now rewrite Hsub).
  assert (Hskip : bool_decide (subdir = None)
                  && negb (bool_decide (is_Some (custom_build_scripts !! program)))
                  = false).
  { destruct subdir as [sd|]; [reflexivity |].
    now rewrite (bool_decide_eq_true_2 _ (Hcustom eq_refl)). }
  rewrite Hskip.
  assert (Hg : bind (Os.exists_ d)
                 (fun ex => if negb ex then Os.makedirs d else ret tt) st
               = (inr tt, st)).
  { unfold bind, Os.exists_. rewrite (bool_decide_eq_true_2 _ Hfile).
    now rewrite orb_true_r. }
  rewrite (RecipeFacts.bind_run _ _ _ _ _ Hg).
  unfold bind, Os.with_open_w, bind, Os.open_w, Os.parent_ok. rewrite Dm.
  assert (Hall : Str.all Str.is_slash d = false).
  { destruct (Str.all Str.is_slash d) eqn:E; [|reflexivity].
    apply RecipeFacts.all_slash_ends in E; [congruence | exact Hd]. }
  rewrite Hall, (bool_decide_eq_false_2 _ Hnd). cbn [orb].
  now rewrite andb_false_r.
Qed.

Lemma recipe_dir_is_a_file_witness :
  write_recipe (sample_env "") sample_templates "addCols" "Sum columns"
    (set_files (<[ "scripts/ucsc/../../recipes/ucsc-addcols" := "x" ]>
                  (files sample_state)) sample_state)
  = (inl (IOError (Path.join (recipe_dir_of (sample_env "") "addCols")
                     "meta.yaml")),
     set_files (<[ "scripts/ucsc/../../recipes/ucsc-addcols" := "x" ]>
                  (files sample_state)) sample_state).
Proof.
  apply (recipe_dir_is_a_file (sample_env "") sample_templates "addCols"
           "Sum columns" (Some "kent/src/utils/addCols")).
  - reflexivity.
  - reflexivity.
  - discriminate.
  - vm_compute. eauto.
  - simpl. apply not_elem_of_empty.
Defined.
(** ** The run as a whole *)

Module WholeFacts.

Import StrFacts PathFacts RunFacts RecipeFacts.

(** *** Changes are confined to the recipes *)

Lemma confined_same (e : env) {A} (m : M A) :
  (forall s, snd (m s) = s) -> confined e m.
Proof. intros H s. rewrite H. auto. Qed.

Lemma confined_bind (e : env) {A B} (m : M A) (k : A -> M B) :
  confined e m -> (forall a, confined e (k a)) -> confined e (bind m k).
Proof.
  intros Hm Hk s. unfold bind. specialize (Hm s).
  destruct (m s) as [[x|a] sm]; cbn [snd] in *; [exact Hm |].
  destruct Hm as [Hf Hd]. destruct (Hk a sm) as [Hf' Hd']. split.
  - intros p Hp. now rewrite Hf', Hf.
  - intros q Hq. destruct (Hd' q Hq) as [H | H]; auto.
Qed.

Lemma confined_print (e : env) (line : string) : confined e (Os.print line).
Proof. intros s. simpl. auto. Qed.

Lemma confined_read (e : env) (p : string) : confined e (Os.read p).
Proof.
  apply confined_same. intros s. unfold Os.read. now destruct (files s !! p).
Qed.

Lemma confined_with_open_w (e : env) (p : string) (content : M string) :
  recipe_path e p -> confined e content -> confined e (Os.with_open_w p content).
Proof.
  intros Hp Hc. unfold Os.with_open_w.
  assert (Hset : forall c s,
             (forall q, ~ recipe_path e q ->
                        files (set_files (<[ p := c ]> (files s)) s) !! q
                        = files s !! q)
             /\ (forall q, q ∈ dirs (set_files (<[ p := c ]> (files s)) s) ->
                           q ∈ dirs s \/ exists program, q = recipe_dir_of e program)).
  { intros c s. split; simpl; auto.
    intros q Hq. apply lookup_insert_ne. now intros ->. }
  apply confined_bind.
  { intros s. unfold Os.open_w. destruct (_ && _); [apply Hset | auto]. }
  intros _. apply confined_bind; [exact Hc |].
  intros c s. apply Hset.
Qed.

Lemma confined_ensure_dir (e : env) (program : string) :
  confined e
    (bind (Os.exists_ (recipe_dir_of e program))
       (fun ex => if negb ex then Os.makedirs (recipe_dir_of e program)
                  else ret tt)).
Proof.
  intros s. unfold bind, Os.exists_, Os.makedirs, ret.
  destruct (_ || _) eqn:E; cbn [negb snd]; [auto |].
  rewrite E. cbn [snd set_dirs dirs files]. split; [auto |].
  intros q [H%elem_of_singleton | H]%elem_of_union; eauto.
Qed.

Lemma recipe_path_of (e : env) (program f : string) :
  f ∈ recipe_files ->
  recipe_path e (Path.join (Path.join (recipes_dir e) (package_of program)) f).
Proof. intros Hf. now exists program, f. Qed.

Lemma confined_write_recipe (e : env) (tp : templates)
    (program description : string) :
  confined e (write_recipe e tp program description).
Proof.
  unfold write_recipe.
  apply confined_bind; [now apply confined_same |]. intros subdir.
  destruct (_ && _); [apply confined_print |].
  apply confined_bind; [apply (confined_ensure_dir e program) |]. intros _.
  assert (Hin : forall f, f ∈ recipe_files ->
               recipe_path e
                 (Path.join (Path.join (recipes_dir e) (package_of program)) f))
    by (intros f; apply recipe_path_of).
  apply confined_bind.
  { apply confined_with_open_w; [|now apply confined_same].
    apply Hin. unfold recipe_files. rewrite !elem_of_cons. tauto. }
  intros _. apply confined_bind.
  { apply confined_with_open_w.
    - apply Hin. unfold recipe_files. rewrite !elem_of_cons. tauto.
    - apply confined_bind; [apply confined_read |]. intros tpl.
      apply confined_bind; [now apply confined_same |]. intros sd.
      now apply confined_same. }
  intros _. apply confined_bind.
  { apply confined_with_open_w; [|now apply confined_same].
    apply Hin. unfold recipe_files. rewrite !elem_of_cons. tauto. }
  intros _. apply confined_with_open_w; [|apply confined_read].
  apply Hin. unfold recipe_files. rewrite !elem_of_cons. tauto.
Qed.

Lemma confined_for_blocks (e : env) (tp : templates) (blocks : list block) :
  confined e (for_blocks e tp blocks).
Proof.
  induction blocks as [|b rest IH]; [now apply confined_same |].
  cbn [for_blocks]. apply confined_bind; [|now intros _].
  unfold loop_body. apply confined_bind; [now apply confined_same |].
  intros [[program description]|];
    [apply confined_write_recipe | now apply confined_same].
Qed.

Lemma confined_main (e : env) : confined e (main e).
Proof.
  unfold main.
  apply confined_bind; [apply confined_read |]. intros meta.
  apply confined_bind; [apply confined_read |]. intros build.
  apply confined_bind; [apply confined_read |]. intros test.
  apply confined_for_blocks.
Qed.

(** *** What is printed *)

Lemma notices_same {A} (m : M A) : silent m -> notices m.
Proof. intros H s. exists []. now rewrite H, app_nil_r. Qed.

Lemma notices_bind {A B} (m : M A) (k : A -> M B) :
  notices m -> (forall a, notices (k a)) -> notices (bind m k).
Proof.
  intros Hm Hk s. unfold bind. specialize (Hm s).
  destruct (m s) as [[x|a] sm]; cbn [snd] in *; [exact Hm |].
  destruct Hm as [ps Hps]. destruct (Hk a sm) as [ps' Hps'].
  exists (ps ++ ps'). now rewrite Hps', Hps, map_app, List.app_assoc.
Qed.

Lemma silent_ensure_dir (d : string) :
  silent (bind (Os.exists_ d)
            (fun ex => if negb ex then Os.makedirs d else ret tt)).
Proof.
  intros s. unfold bind, Os.exists_, Os.makedirs, ret.
  destruct (_ || _) eqn:E; cbn [negb snd]; [reflexivity |].
  now rewrite E.
Qed.

Lemma notices_write_recipe (e : env) (tp : templates)
    (program description : string) :
  notices (write_recipe e tp program description).
Proof.
  unfold write_recipe.
  apply notices_bind; [apply notices_same, lift_silent |]. intros subdir.
  destruct (_ && _).
  { intros s. now exists [program]. }
  apply notices_same.
  apply silent_bind; [apply silent_ensure_dir |]. intros _.
  apply silent_bind; [apply with_open_w_silent, lift_silent |]. intros _.
  apply silent_bind.
  { apply with_open_w_silent.
    apply silent_bind; [apply read_silent |]. intros tpl.
    apply silent_bind; [apply lift_silent |]. intros sd. apply lift_silent. }
  intros _.
  apply silent_bind; [apply with_open_w_silent, lift_silent |]. intros _.
  apply with_open_w_silent, read_silent.
Qed.

Lemma notices_for_blocks (e : env) (tp : templates) (blocks : list block) :
  notices (for_blocks e tp blocks).
Proof.
  induction blocks as [|b rest IH]; [now apply notices_same |].
  cbn [for_blocks]. apply notices_bind; [|now intros _].
  unfold loop_body. apply notices_bind; [apply notices_same, lift_silent |].
  intros [[program description]|];
    [apply notices_write_recipe | now apply notices_same].
Qed.

Lemma notices_main (e : env) : notices (main e).
Proof.
  unfold main.
  apply notices_bind; [apply notices_same, read_silent |]. intros meta.
  apply notices_bind; [apply notices_same, read_silent |]. intros build.
  apply notices_bind; [apply notices_same, read_silent |]. intros test.
  apply notices_for_blocks.
Qed.

(** The run with the templates at hand. *)
Lemma main_with_templates (e : env) (st : state) (meta build test : string) :
  files st !! "template-meta.yaml" = Some meta ->
  files st !! "template-build.sh" = Some build ->
  files st !! "template-run_test.sh" = Some test ->
  main e st
  = for_blocks e
      {| meta_template := meta; build_template := build; test_template := test |}
      (parse_footer (footer e)) st.
Proof.
  intros Hm Hb Ht. unfold main, bind, Os.read. now rewrite Hm, Hb, Ht.
Qed.

(** The loop reads of its environment the directory of the script and
    the archive. *)
Lemma for_blocks_env (e1 e2 : env) (tp : templates) (blocks : list block)
    (st : state) :
  script_dir e1 = script_dir e2 -> t e1 = t e2 ->
  for_blocks e1 tp blocks st = for_blocks e2 tp blocks st.
Proof.
  intros Hd Ht. revert st. induction blocks as [|b rest IH]; intros st;
    [reflexivity |].
  rewrite !LoopFacts.for_blocks_cons, !LoopFacts.loop_body_resolve.
  assert (Hw : forall program description s,
             write_recipe e1 tp program description s
             = write_recipe e2 tp program description s).
  { intros program description s. unfold write_recipe, recipes_dir.
    now rewrite Hd, Ht. }
  destruct (resolve_block b) as [x | [[program description]|]];
    [reflexivity | rewrite Hw | apply IH].
  destruct (write_recipe e2 tp program description st) as [[x|[]] st'];
    [reflexivity | apply IH].
Qed.

End WholeFacts.

Import WholeFacts.

(** X17: the three templates are read before the first block: when one
    of them is missing, the default build template included, the run
    raises [IOError] for the first missing one and changes nothing,
    whatever the manifest holds. *)
Theorem missing_template_stops_at_start (e : env) (st : state) :
  (files st !! "template-meta.yaml" = None ->
   main e st = (inl (IOError "template-meta.yaml"), st))
  /\ (is_Some (files st !! "template-meta.yaml") ->
      files st !! "template-build.sh" = None ->
      main e st = (inl (IOError "template-build.sh"), st))
  /\ (is_Some (files st !! "template-meta.yaml") ->
      is_Some (files st !! "template-build.sh") ->
      files st !! "template-run_test.sh" = None ->
      main e st = (inl (IOError "template-run_test.sh"), st)).
Proof.
  unfold main, bind, Os.read. repeat split.
  - now intros ->.
  - intros [m ->] ->. reflexivity.
  - intros [m ->] [b ->] ->. reflexivity.
Qed.

Lemma missing_template_stops_at_start_witness :
  main (sample_env ("=== addCols ===" +:+ Str.NL))
    (set_files (delete "template-build.sh" (files sample_state)) sample_state)
  = (inl (IOError "template-build.sh"),
     set_files (delete "template-build.sh" (files sample_state)) sample_state).
Proof.
  apply (proj1 (proj2 (missing_template_stops_at_start
                         (sample_env ("=== addCols ===" +:+ Str.NL))
                         (set_files (delete "template-build.sh"
                                       (files sample_state)) sample_state)))).
  - vm_compute. eauto.
  - reflexivity.
Defined.

(** X18: a run removes nothing: every directory and every file that was
    there is there after the run, failed or not, and no file has become
    a directory. *)
Theorem run_removes_nothing (e : env) (st : state) :
  dirs st ⊆ dirs (snd (main e st))
  /\ (forall p, is_Some (files st !! p) ->
                is_Some (files (snd (main e st)) !! p))
  /\ (forall p, is_Some (files st !! p) -> p ∉ dirs st ->
                p ∉ dirs (snd (main e st))).
Proof.
  destruct (RunFacts.repeatable_main e) as [Hfut _].
  destruct (Hfut st) as [HD HF HN _]. auto.
Qed.

(** X19: a run writes no file but recipe files: a file that is not one
    of the four files in the recipe directory of a program keeps its
    content, the templates and the patch among them. *)
Theorem run_writes_only_recipes (e : env) (st : state) (p : string) :
  ~ recipe_path e p ->
  files (snd (main e st)) !! p = files st !! p.
Proof. apply (proj1 (confined_main e st)). Qed.

(** X20: all that a run prints are skip notices: the console after the
    run is the console before it followed by lines of the form
    [Skipping <program>]. *)
Theorem run_prints_skip_notices (e : env) (st : state) :
  exists programs,
    console (snd (main e st))
    = console st ++ map (fun program => "Skipping " +:+ program) programs.
Proof. apply notices_main. Qed.

(** X21: a failed run is not changed by what follows in the manifest:
    when the run on a manifest fails, the run on the manifest extended
    from a header line on fails in the same way and leaves the same
    state. *)
Theorem failed_run_ignores_later_blocks (dir : string) (tar : TarFile)
    (pre hbody tl rest name : string) (st : state) (x : exn) :
  complete pre -> no_nl hbody ->
  tl = Str.NL \/ (tl = "" /\ rest = "") ->
  re_header_match (hbody +:+ tl) = Some name ->
  fst (main {| script_dir := dir; t := tar; footer := pre |} st) = inl x ->
  main {| script_dir := dir; t := tar;
          footer := pre +:+ hbody +:+ tl +:+ rest |} st
  = main {| script_dir := dir; t := tar; footer := pre |} st.
Proof.
  intros Hpre Hb Htl Hh.
  unfold main, bind, Os.read.
  destruct (files st !! "template-meta.yaml") as [meta|]; [|reflexivity].
  destruct (files st !! "template-build.sh") as [build|]; [|reflexivity].
  destruct (files st !! "template-run_test.sh") as [test|]; [|reflexivity].
  cbn [footer].
  rewrite (BlockFacts.parse_footer_before_header pre hbody tl rest name
             Hpre Hb Htl Hh).
  rewrite LoopFacts.for_blocks_app.
  set (e1 := {| script_dir := dir; t := tar; footer := pre |}).
  set (e2 := {| script_dir := dir; t := tar;
                footer := pre +:+ hbody +:+ tl +:+ rest |}).
  set (tp := {| meta_template := meta; build_template := build;
                test_template := test |}).
  rewrite (for_blocks_env e2 e1 tp _ st eq_refl eq_refl).
  destruct (for_blocks e1 tp (parse_footer pre) st) as [[y|[]] st'];
    [reflexivity | discriminate].
Qed.

Lemma failed_run_ignores_later_blocks_witness :
  main {| script_dir := "scripts/ucsc"; t := sample_tar;
          footer := ("=== zzz ===" +:+ Str.NL)
                    +:+ "=== addCols ===" +:+ Str.NL +:+ "addCols - Sum" |}
    sample_state
  = main {| script_dir := "scripts/ucsc"; t := sample_tar;
            footer := "=== zzz ===" +:+ Str.NL |} sample_state.
Proof.
  apply (failed_run_ignores_later_blocks "scripts/ucsc" sample_tar
           ("=== zzz ===" +:+ Str.NL) "=== addCols ===" Str.NL "addCols - Sum"
           "addCols" sample_state (KeyError "zzz")).
  - right. now exists "=== zzz ===".
  - reflexivity.
  - now left.
  - reflexivity.
  - reflexivity.
Defined.

Lemma run_removes_nothing_witness :
  is_Some (files (snd (main (sample_env ("=== addCols ===" +:+ Str.NL
                                         +:+ "addCols - Sum"))
                         sample_state)) !! "include.patch").
Proof.
  apply (proj1 (proj2 (run_removes_nothing
                         (sample_env ("=== addCols ===" +:+ Str.NL
                                      +:+ "addCols - Sum"))
                         sample_state))).
  vm_compute. eauto.
Defined.

Lemma run_writes_only_recipes_witness :
  files (snd (main (sample_env ("=== addCols ===" +:+ Str.NL
                                +:+ "addCols - Sum")) sample_state))
    !! "template-build.sh"
  = files sample_state !! "template-build.sh".
Proof.
  apply (run_writes_only_recipes
           (sample_env ("=== addCols ===" +:+ Str.NL +:+ "addCols - Sum"))
           sample_state).
  intros (program & f & Hf & H).
  assert (Hs : has_slash "template-build.sh").
  { rewrite H. apply PathFacts.join_has_slash.
    - apply PathFacts.recipe_dir_nonempty.
    - unfold recipe_files in Hf. rewrite !elem_of_cons, elem_of_nil in Hf.
      destruct Hf as [-> | [-> | [-> | [-> | []]]]]; reflexivity. }
  discriminate Hs.
Defined.

(** X22: a manifest without a header line, the empty manifest among
    them, yields no block, and the run on it changes nothing once the
    templates are read. *)
Theorem manifest_without_header (e : env) (st : state) :
  header_names (Str.readlines (footer e)) = [] ->
  is_Some (files st !! "template-meta.yaml") ->
  is_Some (files st !! "template-build.sh") ->
  is_Some (files st !! "template-run_test.sh") ->
  parse_footer (footer e) = [] /\ main e st = (inr tt, st).
Proof.
  intros Hh [meta Hm] [build Hb] [test Ht].
  assert (Hp : parse_footer (footer e) = []).
  { unfold parse_footer. apply (map_eq_nil block_header).
    now rewrite BlockFacts.parse_lines_headers, Hh. }
  split; [exact Hp |].
  now rewrite (main_with_templates e st meta build test Hm Hb Ht), Hp.
Qed.

Lemma manifest_without_header_witness :
  parse_footer (footer (sample_env ("addCols - Sum columns" +:+ Str.NL
                                    +:+ "  usage: addCols")))
  = []
  /\ main (sample_env ("addCols - Sum columns" +:+ Str.NL
                       +:+ "  usage: addCols")) sample_state
     = (inr tt, sample_state).
Proof.
  apply manifest_without_header.
  - reflexivity.
  - vm_compute. eauto.
  - vm_compute. eauto.
  - vm_compute. eauto.
Defined.

(** X23: where the recipes go: the recipes directory lies two levels
    above the directory of the script, and the recipe directory of a
    program is the package name below it, whatever the directory of the
    script and the program name are. *)
Theorem recipe_dir_location (e : env) (program : string) :
  recipes_dir e = Path.join (script_dir e) ".." +:+ "/../recipes"
  /\ recipe_dir_of e program
     = recipes_dir e +:+ "/ucsc-" +:+ Str.lower program.
Proof.
  assert (H1 : Path.join (script_dir e) ".." <> ""
               /\ Str.endswith (Path.join (script_dir e) "..") "/" = false).
  { split; [now apply PathFacts.join_nonempty |].
    now rewrite RecipeFacts.endswith_join. }
  destruct H1 as [Hn1 He1].
  assert (J2 : Path.join (Path.join (script_dir e) "..") ".."
               = Path.join (script_dir e) ".." +:+ "/..").
  { now apply (RecipeFacts.dirname_join _ ".."). }
  assert (H2 : Path.join (Path.join (script_dir e) "..") ".." <> ""
               /\ Str.endswith (Path.join (Path.join (script_dir e) "..") "..") "/"
                  = false).
  { split; [now apply PathFacts.join_nonempty |].
    now rewrite RecipeFacts.endswith_join. }
  destruct H2 as [Hn2 He2].
  assert (J3 : recipes_dir e = Path.join (script_dir e) ".." +:+ "/../recipes").
  { unfold recipes_dir.
    rewrite (proj1 (RecipeFacts.dirname_join _ "recipes" Hn2 He2 eq_refl)), J2.
    now rewrite StrFacts.sapp_assoc. }
  split; [exact J3 |].
  assert (H3 : recipes_dir e <> "" /\ Str.endswith (recipes_dir e) "/" = false).
  { split; [now apply PathFacts.join_nonempty |].
    unfold recipes_dir. now rewrite RecipeFacts.endswith_join. }
  destruct H3 as [Hn3 He3].
  unfold recipe_dir_of, Path.join at 1.
  change (Str.startswith (package_of program) "/") with false.
  destruct (recipes_dir e) as [|c r] eqn:E; [easy |].
  rewrite He3. reflexivity.
Qed.
